(** * ai-error-solution: the response parser and the retry/orchestration flow

    A shallow embedding of [openaiCurl.js] (section and reference extraction,
    [parseAIResponse]), [init.js] ([getConfig]) and [fixError.js]
    ([normalizeError], the retry loop, [fixError]), with the properties the
    specification states about them.

    Strings.  A JavaScript string is a sequence of UTF-16 code units.  The
    development works on the strings all of whose code units are below 256
    (ASCII and the Latin-1 block), represented by [string]: one [ascii] per
    code unit.  On that alphabet [toLowerCase], [trim] and the regular
    expression classes [\s], [\d] and [[A-Z]] are exactly the functions
    below.  The proofs about arbitrary texts use nothing of the alphabet
    but this.

    Numbers.  [timeout], [maxRetries] and the attempt counter are integers
    ([Z]).

    Exceptions.  What [getConfig] and [callOpenAI] throw are [Error]
    objects, and what [callOpenAI] resolves to is an object: both are
    truthy.  The [content] of that object is what the API sent, a string
    or not.  [String(value)] throws for an object without a usable
    [toString]; the conversion of a value has the same outcome each time
    it is made.  A statement ends normally or by a throw ([completion]); the
    effects of an analysis (provider calls, waits, console reports) are
    recorded in order in a trace ([World]). *)

From Stdlib Require Import String Ascii List ZArith Lia Bool Arith.
From Stdlib Require Import DecimalString.
From Equations Require Import Equations.
Import ListNotations.
Local Open Scope string_scope.

(** ** JavaScript string primitives *)

Module Js.

Definition code (c : ascii) : nat := nat_of_ascii c.

(** [\d] *)
Definition isDigit (c : ascii) : bool :=
  (48 <=? code c)%nat && (code c <=? 57)%nat.

(** [[A-Z]] *)
Definition isUpperAZ (c : ascii) : bool :=
  (65 <=? code c)%nat && (code c <=? 90)%nat.

(** [\s], and the characters [trim] removes: TAB, LF, VT, FF, CR, SP and
    NBSP (the other white space of ECMAScript lies above code unit 255). *)
Definition isWhiteSpace (c : ascii) : bool :=
  ((9 <=? code c)%nat && (code c <=? 13)%nat)
  || (code c =? 32)%nat || (code c =? 160)%nat.

(** Lower-case mapping of one code unit: A-Z, and the Latin-1 capitals
    U+00C0..U+00DE except the multiplication sign U+00D7. *)
Definition toLowerChar (c : ascii) : ascii :=
  let n := code c in
  if ((65 <=? n)%nat && (n <=? 90)%nat)
     || ((192 <=? n)%nat && (n <=? 222)%nat && negb (n =? 215)%nat)
  then ascii_of_nat (n + 32) else c.

(** [s.toLowerCase()] *)
Fixpoint toLowerCase (s : string) : string :=
  match s with
  | EmptyString => EmptyString
  | String c r => String (toLowerChar c) (toLowerCase r)
  end.

Fixpoint trimStart (s : string) : string :=
  match s with
  | EmptyString => EmptyString
  | String c r => if isWhiteSpace c then trimStart r else s
  end.

Fixpoint trimEnd (s : string) : string :=
  match s with
  | EmptyString => EmptyString
  | String c r =>
      match trimEnd r with
      | EmptyString => if isWhiteSpace c then EmptyString else String c EmptyString
      | r' => String c r'
      end
  end.

(** [s.trim()] *)
Definition trim (s : string) : string := trimEnd (trimStart s).

(** Truthiness of a string: only the empty string is falsy. *)
Definition truthy (s : string) : bool :=
  match s with EmptyString => false | String _ _ => true end.

(** [s.startsWith(p)] *)
Fixpoint startsWith (p s : string) : bool :=
  match p, s with
  | EmptyString, _ => true
  | String a p', String b s' => Ascii.eqb a b && startsWith p' s'
  | String _ _, EmptyString => false
  end.

(** [s.includes(p)] *)
Fixpoint includes (p s : string) : bool :=
  startsWith p s ||
  match s with
  | EmptyString => false
  | String _ s' => includes p s'
  end.

(** [s.split('\n')]: never empty, [""] for the empty string. *)
Definition LF : ascii := "010"%char.

Fixpoint split_lines (s : string) : list string :=
  match s with
  | EmptyString => [EmptyString]
  | String c r =>
      if Ascii.eqb c LF then EmptyString :: split_lines r
      else match split_lines r with
           | h :: t => String c h :: t
           | [] => [String c EmptyString]
           end
  end.

(** [xs.join('\n')] *)
Definition join_lines (xs : list string) : string :=
  String.concat (String LF EmptyString) xs.

(** Longest prefix of characters satisfying [p], and what follows it. *)
Fixpoint dropWhile (p : ascii -> bool) (s : string) : string :=
  match s with
  | EmptyString => EmptyString
  | String c r => if p c then dropWhile p r else s
  end.

Fixpoint takeWhile (p : ascii -> bool) (s : string) : string :=
  match s with
  | EmptyString => EmptyString
  | String c r => if p c then String c (takeWhile p r) else EmptyString
  end.

(** Position of the first occurrence of [c]. *)
Fixpoint indexOfChar (c : ascii) (s : string) : option nat :=
  match s with
  | EmptyString => None
  | String d r =>
      if Ascii.eqb d c then Some 0
      else option_map S (indexOfChar c r)
  end.

End Js.

(** ** openaiCurl.js: parsing the completion text *)

Module OpenaiCurl.
Import Js.

(** [keywords.some(kw => lowerLine.includes(kw) &&
      (lowerLine.includes(':') || lowerLine.includes('**')))] *)
Definition isKeywordLine (keywords : list string) (line : string) : bool :=
  let lowerLine := toLowerCase line in
  existsb (fun kw =>
             includes kw lowerLine
             && (includes ":" lowerLine || includes "**" lowerLine))
          keywords.

(** [^\d+\.] *)
Definition startsNumbered (line : string) : bool :=
  match line with
  | String c r =>
      isDigit c &&
      match dropWhile isDigit r with
      | String d _ => Ascii.eqb d "."
      | EmptyString => false
      end
  | EmptyString => false
  end.

(** [^[A-Z][^:]{3,}:] - a capital, then at least three characters other
    than a colon, then a colon: the first colon after the capital has at
    least three characters before it. *)
Definition startsCapitalLabel (line : string) : bool :=
  match line with
  | String c r =>
      isUpperAZ c &&
      match indexOfChar ":" r with
      | Some p => (3 <=? p)%nat
      | None => false
      end
  | EmptyString => false
  end.

(** [line.match(/^\d+\.|^-|^â€¢|^[A-Z][^:]{3,}:/)].  The third alternative
    needs the code unit U+20AC, which no string of this alphabet holds: it
    never matches here. *)
Definition matchesHeaderPattern (line : string) : bool :=
  startsNumbered line || startsWith "-" line || false
  || startsCapitalLabel line.

(** [line.match(/^\d+\.\s+[A-Z]/)] *)
Definition matchesNumberedSection (line : string) : bool :=
  match line with
  | String c r =>
      isDigit c &&
      match dropWhile isDigit r with
      | String d (String s r') =>
          Ascii.eqb d "." && isWhiteSpace s &&
          match dropWhile isWhiteSpace r' with
          | String u _ => isUpperAZ u
          | EmptyString => false
          end
      | _ => false
      end
  | EmptyString => false
  end.

(** The first [break]: a header-like line naming documentation,
    references or links. *)
Definition hitsReferences (line : string) : bool :=
  matchesHeaderPattern line &&
  (includes "documentation" (toLowerCase line)
   || includes "reference" (toLowerCase line)
   || includes "link" (toLowerCase line)).

(** The second [break]: a numbered section that names none of the
    keywords. *)
Definition hitsOtherSection (keywords : list string) (line : string) : bool :=
  matchesNumberedSection line &&
  negb (existsb (fun kw => includes kw (toLowerCase line)) keywords).

(** The look-ahead of the third [break]:
    [i + 1 < lines.length && !lines[i + 1].trim() &&
     i + 2 < lines.length && !lines[i + 2].trim()],
    on the lines after the current one. *)
Definition twoBlankAhead (rest : list string) : bool :=
  match rest with
  | a :: b :: _ => negb (truthy (trim a)) && negb (truthy (trim b))
  | _ => false
  end.

(** The [for] loop of [extractSection], from line [i] on: [lines] are the
    lines [i], [i+1], ...; [capturing] and [result] are the loop's
    variables.  It returns the final [result]. *)
Fixpoint scanLines (keywords : list string) (capturing : bool)
    (result : list string) (lines : list string) : list string :=
  match lines with
  | [] => result
  | line :: rest =>
      if isKeywordLine keywords line then
        (* capturing = true; continue *)
        scanLines keywords true result rest
      else if capturing && hitsReferences line then result
      else if capturing && hitsOtherSection keywords line then result
      else if capturing && truthy (trim line) then
        let result' := (result ++ [trim line])%list in
        if twoBlankAhead rest then result'
        else scanLines keywords capturing result' rest
      else scanLines keywords capturing result rest
  end.

(** The lines [extractSection] collects, before they are joined. *)
Definition capturedLines (content : string) (keywords : list string)
  : list string :=
  scanLines keywords false [] (split_lines content).

(** [result.join('\n') || content.substring(0, 200) + '...'] *)
Definition extractSection (content : string) (keywords : list string)
  : string :=
  let joined := join_lines (capturedLines content keywords) in
  if truthy joined then joined
  else substring 0 200 content ++ "...".

(** *** extractReferences *)

Definition notWhiteSpace (c : ascii) : bool := negb (isWhiteSpace c).

(** What follows the prefix [p] in [s], when [s] starts with [p]. *)
Fixpoint afterPrefix (p s : string) : option string :=
  match p, s with
  | EmptyString, _ => Some s
  | String a p', String b s' =>
      if Ascii.eqb a b then afterPrefix p' s' else None
  | String _ _, EmptyString => None
  end.

(** [scheme] followed by at least one character that is not white space:
    the start of a match of [scheme[^\s]+]. *)
Definition schemeStartsHere (scheme s : string) : bool :=
  match afterPrefix scheme s with
  | Some (String c _) => notWhiteSpace c
  | _ => false
  end.

(** Whether [/https?:\/\/[^\s]+/] matches at the very start of [s]. *)
Definition urlStartsHere (s : string) : bool :=
  schemeStartsHere "https://" s || schemeStartsHere "http://" s.

(** [content.match(/(https?:\/\/[^\s]+)/g)], read left to right.
    [current] is the match being extended, if any: outside a match, one
    begins at the first position where the pattern matches; inside, the
    greedy [[^\s]+] takes every character up to the next white space, and
    the search resumes after it. *)
Fixpoint matchUrls (current : option string) (s : string) : list string :=
  match s with
  | EmptyString =>
      match current with Some u => [u] | None => [] end
  | String c r =>
      match current with
      | Some u =>
          if isWhiteSpace c then u :: matchUrls None r
          else matchUrls (Some (u ++ String c EmptyString)) r
      | None =>
          if urlStartsHere s then matchUrls (Some (String c EmptyString)) r
          else matchUrls None r
      end
  end.

(** The class [[),.\]>]] *)
Definition isTrailingPunct (c : ascii) : bool :=
  Ascii.eqb c ")" || Ascii.eqb c "," || Ascii.eqb c "."
  || Ascii.eqb c "]" || Ascii.eqb c ">".

(** [url.replace(/[),.\]>]+$/, '')]: the whole run of these characters at
    the end of [url] is removed. *)
Fixpoint stripTrailingPunct (url : string) : string :=
  match url with
  | EmptyString => EmptyString
  | String c r =>
      match stripTrailingPunct r with
      | EmptyString =>
          if isTrailingPunct c then EmptyString else String c EmptyString
      | r' => String c r'
      end
  end.

(** [(content.match(urlRegex) || []).map(url => url.replace(...))] *)
Definition extractReferences (content : string) : list string :=
  map stripTrailingPunct (matchUrls None content).

(** *** parseAIResponse *)

Record StructuredAnalysis := {
  explanation : string;
  causes : string;
  fixes : string;
  references : list string;
  raw : string
}.

Definition explanationKeywords : list string :=
  ["explanation"; "plain-english"; "what happened"].
Definition causesKeywords : list string :=
  ["causes"; "likely causes"; "reasons"].
Definition fixesKeywords : list string :=
  ["fixes"; "suggested fixes"; "solutions"; "fix"].

(** The unused local [lines] of the source is left out. *)
Definition parseAIResponse (content : string) : StructuredAnalysis :=
  {| explanation := extractSection content explanationKeywords;
     causes := extractSection content causesKeywords;
     fixes := extractSection content fixesKeywords;
     references := extractReferences content;
     raw := content |}.

(** The raw text of the end-to-end example. *)
Definition exampleCompletion : string :=
"1. Explanation:
Null pointer when object is undefined.

2. Causes:
- Missing initialization
- Async timing issue

3. Fixes:
- Add a null check
See https://example.com/docs.".

End OpenaiCurl.

(** ** JavaScript errors and completions *)

Module Exn.

(** The [stack] property of an error object.  The text an engine attaches
    when [new Error(message)] runs is engine-specific; it is kept symbolic.
    It is a non-empty string (it starts with the error's name). *)
Inductive StackValue :=
| EngineStack (message : string)
| StackText (text : string)
| StackUndefined.

Definition stackTruthy (s : StackValue) : bool :=
  match s with
  | EngineStack _ => true
  | StackText text => Js.truthy text
  | StackUndefined => false
  end.

(** An [Error] object. *)
Record JsError := {
  name : string;
  message : string;
  stack : StackValue
}.

(** [new Error(message)] *)
Definition newError (message : string) : JsError :=
  {| name := "Error"; message := message; stack := EngineStack message |}.

(** A [TypeError] of the engine; the messages given below are V8's. *)
Definition typeError (message : string) : JsError :=
  {| name := "TypeError"; message := message;
     stack := EngineStack message |}.

(** How the evaluation of a statement ends: normally with a value, or by
    a [throw]. *)
Inductive completion (A : Type) :=
| Normal (a : A)
| Thrown (e : JsError).
Arguments Normal {A} a.
Arguments Thrown {A} e.

End Exn.

(** ** init.js: the process-wide configuration *)

Module Init.
Import Exn.

Record Config := {
  apiKey : option string;
  model : string;
  timeout : Z;
  maxRetries : Z;
  initialized : bool
}.

(** The module-level [config] when the module is loaded, and after
    [resetConfig()]. *)
Definition initialConfig : Config :=
  {| apiKey := None; model := "gpt-4o-mini"; timeout := 30000;
     maxRetries := 1; initialized := false |}.

Definition resetConfig (_ : Config) : Config := initialConfig.

Definition notInitializedMessage : string :=
  "ai-error-solution: Package not initialized. Please call initAutoErrorSolution() first with your API key.".

(** [getConfig()], reading the module-level [config]. *)
Definition getConfig (config : Config) : completion Config :=
  if negb (initialized config) then Thrown (newError notInitializedMessage)
  else Normal config.

Definition isInitialized (config : Config) : bool := initialized config.

(** The [options] of [initAutoErrorSolution]; [None] is an absent
    property. *)
Record InitOptions := {
  optApiKey : option string;
  optModel : option string;
  optTimeout : option Z;
  optMaxRetries : option Z
}.

(** The argument of [initAutoErrorSolution]: left out ([undefined],
    replaced by the default [{}]), [null], or an object. *)
Inductive InitArg :=
| InitArgUndefined
| InitArgNull
| InitArgObject (options : InitOptions).

Definition noOptions : InitOptions :=
  {| optApiKey := None; optModel := None;
     optTimeout := None; optMaxRetries := None |}.

(** [initAutoErrorSolution(options)] for an object: the new value of
    [config], or the error thrown when the key is missing or empty.  The
    console message is left out. *)
Definition initWithOptions (options : InitOptions) : completion Config :=
  match optApiKey options with
  | Some key =>
      if Js.truthy key then
        Normal
          {| apiKey := Some key;
             model := match optModel options with
                      | Some m => if Js.truthy m then m else "gpt-4o-mini"
                      | None => "gpt-4o-mini"
                      end;
             timeout := match optTimeout options with
                        | Some t => if (t =? 0)%Z then 30000%Z else t
                        | None => 30000%Z
                        end;
             maxRetries := match optMaxRetries options with
                           | Some n => n
                           | None => 1%Z
                           end;
             initialized := true |}
      else Thrown (newError "ai-error-solution: API key is required. Please provide your OpenAI API key.")
  | None => Thrown (newError "ai-error-solution: API key is required. Please provide your OpenAI API key.")
  end.

(** [initAutoErrorSolution(options)], with the module-level [config] at
    the time of the call (every field is written anew, none is read).
    Reading [options.apiKey] of [null] throws a [TypeError]. *)
Definition initAutoErrorSolution (options : InitArg) (config : Config)
  : completion Config :=
  match options with
  | InitArgUndefined => initWithOptions noOptions
  | InitArgNull =>
      Thrown (typeError "Cannot read properties of null (reading 'apiKey')")
  | InitArgObject options => initWithOptions options
  end.

End Init.

(** ** fixError.js: normalisation, retries and the orchestration *)

Module FixError.
Import Exn Init OpenaiCurl.

(** *** The effects of an analysis *)

(** The arguments of one [callOpenAI(apiKey, model, errorMessage,
    stackTrace, timeout)]. *)
Record CallArgs := {
  argApiKey : option string;
  argModel : string;
  argErrorMessage : string;
  argStackTrace : StackValue;
  argTimeout : Z
}.

(** The [content] of the message the API returns.  [callOpenAI] passes
    [response.choices[0].message.content] on unchecked: it is a string,
    or [null] (a refusal, a tool call), or absent, or some other JSON
    value. *)
Inductive Content :=
| ContentText (text : string)
| ContentNull
| ContentUndefined
| ContentOther.

(** What [callOpenAI] resolves to. *)
Record Response := {
  content : Content;
  responseModel : string;
  usage : option string
}.

(** [parseAIResponse(aiResponse.content)]: its first statement,
    [content.split('\n')], throws when [content] is not a string. *)
Definition parseContent (content : Content)
  : completion StructuredAnalysis :=
  match content with
  | ContentText text => Normal (parseAIResponse text)
  | ContentNull =>
      Thrown (typeError "Cannot read properties of null (reading 'split')")
  | ContentUndefined =>
      Thrown
        (typeError "Cannot read properties of undefined (reading 'split')")
  | ContentOther => Thrown (typeError "content.split is not a function")
  end.

(** The provider behind [callOpenAI]: the outcome of its [n]-th
    invocation (counted from 0) on the given arguments. *)
Definition Provider : Type := CallArgs -> nat -> completion Response.

(** What an analysis does to the outside, in the order it happens. *)
Inductive Event :=
| CallOpenAI (args : CallArgs)
| Sleep (ms : Z)
| LogErrorAnalysis (errorObj : JsError) (analysis : StructuredAnalysis)
| LogAnalysisFailure (errorObj : JsError) (reason : string).

Definition World : Type := list Event.

Definition isCall (e : Event) : bool :=
  match e with CallOpenAI _ => true | _ => false end.

Definition sleepOf (e : Event) : option Z :=
  match e with Sleep ms => Some ms | _ => None end.

(** Number of provider invocations so far. *)
Definition callCount (w : World) : nat := length (filter isCall w).

(** The delays requested so far, in order. *)
Fixpoint sleeps (w : World) : list Z :=
  match w with
  | [] => []
  | e :: w' =>
      match sleepOf e with
      | Some ms => ms :: sleeps w'
      | None => sleeps w'
      end
  end.

(** Statements: they act on the world and end normally or by a throw. *)
Definition M (A : Type) : Type := World -> completion A * World.

Definition ret {A} (a : A) : M A := fun w => (Normal a, w).
Definition throw {A} (e : JsError) : M A := fun w => (Thrown e, w).
Definition lift {A} (c : completion A) : M A := fun w => (c, w).
Definition emit (e : Event) : M unit := fun w => (Normal tt, (w ++ [e])%list).

Definition bind {A B} (c : M A) (k : A -> M B) : M B :=
  fun w =>
    match c w with
    | (Normal a, w') => k a w'
    | (Thrown e, w') => (Thrown e, w')
    end.

(** [try { body } catch (e) { handler }]: what [body] did before it threw
    stays done. *)
Definition tryCatch {A} (body : M A) (handler : JsError -> M A) : M A :=
  fun w =>
    match body w with
    | (Normal a, w') => (Normal a, w')
    | (Thrown e, w') => handler e w'
    end.

Notation "x <- c ;; k" := (bind c (fun x => k))
  (at level 61, c at next level, right associativity).
Notation "c ;;; k" := (bind c (fun _ => k))
  (at level 61, right associativity).

(** [await callOpenAI(...)] *)
Definition callOpenAI (provider : Provider) (args : CallArgs)
  : M Response :=
  fun w => (provider args (callCount w), (w ++ [CallOpenAI args])%list).

(** [await sleep(ms)] *)
Definition sleep (ms : Z) : M unit := emit (Sleep ms).

(** *** normalizeError *)

(** [String(value)]: a text, or a throw.  The conversion throws for an
    object that has no usable [toString] and [valueOf] (for
    [Object.create(null)] a [TypeError],
    "Cannot convert object to primitive value"), or whose [toString]
    throws.  The conversion of a value has the same outcome each time it
    is made. *)
Inductive Rendering :=
| Renders (text : string)
| Unrenderable (thrown : JsError).

(** The values [fixError] is given as [error].  The [message], [name]
    and [stack] properties of a record, when they are there, are
    strings. *)
Inductive ErrorInput :=
| ErrorObject (e : JsError)
    (* error instanceof Error *)
| StringValue (s : string)
    (* typeof error === 'string' *)
| PlainRecord (recMessage recName recStack : option string)
              (rendering : Rendering)
    (* any other object: its message, name and stack properties when they
       are there, and String(error) *)
| OtherValue (rendering : Rendering)
    (* null, undefined, numbers, booleans, functions, ...:
       String(error) *).

(** [new Error(String(error))], [err.name = 'Error'] *)
Definition errorOfRendering (rendering : Rendering) : completion JsError :=
  match rendering with
  | Renders text =>
      Normal {| name := "Error"; message := text;
                stack := EngineStack text |}
  | Unrenderable thrown => Thrown thrown
  end.

Definition normalizeError (error : ErrorInput) : completion JsError :=
  match error with
  | ErrorObject e => Normal e
  | StringValue s =>
      Normal {| name := "Error"; message := s; stack := EngineStack s |}
  | PlainRecord (Some m) recName recStack rendering =>
      if Js.truthy m then
        Normal
          {| name := match recName with
                     | Some n => if Js.truthy n then n else "Error"
                     | None => "Error"
                     end;
             message := m;
             stack := match recStack with
                      | Some st => if Js.truthy st then StackText st
                                   else EngineStack m
                      | None => EngineStack m
                      end |}
      else errorOfRendering rendering
  | PlainRecord None _ _ rendering => errorOfRendering rendering
  | OtherValue rendering => errorOfRendering rendering
  end.

(** *** The retry loop *)

(** The [for] loop of [fixError], from the test [attempt <= maxRetries]
    on.  It returns the final [aiResponse] and [lastError]. *)
Equations? retryLoop (provider : Provider) (args : CallArgs)
    (maxRetries attempt : Z) (lastError : option JsError) (w : World)
  : (option Response * option JsError) * World
  by wf (Z.to_nat (maxRetries + 1 - attempt)) lt :=
retryLoop provider args maxRetries attempt lastError w
  with Z_le_gt_dec attempt maxRetries := {
  | right _ => ((None, lastError), w);
  | left _ with callOpenAI provider args w := {
    | (Normal response, w1) => ((Some response, lastError), w1);
    | (Thrown err, w1) =>
        retryLoop provider args maxRetries (attempt + 1) (Some err)
          (if (attempt <? maxRetries)%Z
           then snd (sleep (1000 * 2 ^ attempt) w1)
           else w1) } }.
Proof. lia. Qed.

(** The loop and the statement after it:
    [if (!aiResponse) throw lastError || new Error(...)]. *)
Definition callWithRetry (provider : Provider) (args : CallArgs)
    (maxRetries : Z) : M Response :=
  fun w =>
    match retryLoop provider args maxRetries 0 None w with
    | ((Some aiResponse, _), w') => (Normal aiResponse, w')
    | ((None, Some lastError), w') => (Thrown lastError, w')
    | ((None, None), w') =>
        (Thrown (newError "Failed to get response from OpenAI"), w')
    end.

(** *** fixError *)

(** The second argument of [fixError]: left out ([undefined], replaced by
    the default [{}]), [null], or a value with a truthy or falsy [silent]
    property. *)
Inductive OptionsArg :=
| OptionsUndefined
| OptionsNull
| OptionsObject (silent : bool).

(** [options.silent]: reading a property of [null] throws a [TypeError]
    (the message is V8's). *)
Definition readSilent (options : OptionsArg) : M bool :=
  match options with
  | OptionsUndefined => ret false
  | OptionsNull =>
      throw {| name := "TypeError";
               message := "Cannot read properties of null (reading 'silent')";
               stack := EngineStack "Cannot read properties of null (reading 'silent')" |}
  | OptionsObject silent => ret silent
  end.

(** The [error] property of the records [fixError] returns. *)
Record ErrorRecord := {
  error_name : string;
  error_message : string;
  error_stack : StackValue
}.

Inductive ReturnValue :=
| ReturnNull
| ReturnAnalysis (error : ErrorRecord) (analysis : StructuredAnalysis)
                 (model : string) (usage : option string)
| ReturnFailure (error : ErrorRecord) (analysisError : string)
    (* analysis: null *).

(** [fixError(error, options)], with the module-level [config] of
    [init.js] at the time of the call. *)
Definition fixError (provider : Provider) (config : Config)
    (error : ErrorInput) (options : OptionsArg) : M ReturnValue :=
  tryCatch
    (config <- lift (getConfig config) ;;
     errorObj <- lift (normalizeError error) ;;
     let errorMessage :=
       if Js.truthy (message errorObj) then message errorObj
       else "Unknown error" in
     let stackTrace :=
       if stackTruthy (stack errorObj) then stack errorObj
       else StackText "No stack trace available" in
     aiResponse <-
       callWithRetry provider
         {| argApiKey := apiKey config; argModel := Init.model config;
            argErrorMessage := errorMessage; argStackTrace := stackTrace;
            argTimeout := timeout config |}
         (maxRetries config) ;;
     analysis <- lift (parseContent (content aiResponse)) ;;
     silent <- readSilent options ;;
     if (silent : bool) then
       ret (ReturnAnalysis
              {| error_name := name errorObj;
                 error_message := errorMessage;
                 error_stack := stackTrace |}
              analysis (responseModel aiResponse) (usage aiResponse))
     else
       emit (LogErrorAnalysis errorObj analysis) ;;;
       ret ReturnNull)
    (fun analysisError =>
       errorObj <- lift (normalizeError error) ;;
       silent <- readSilent options ;;
       if (silent : bool) then
         ret (ReturnFailure
                {| error_name := name errorObj;
                   error_message := message errorObj;
                   error_stack := stack errorObj |}
                (message analysisError))
       else
         emit (LogAnalysisFailure errorObj (message analysisError)) ;;;
         ret ReturnNull).

End FixError.

(** ** The vocabulary of the specification *)

Module Described.
Import Js OpenaiCurl.

(** A line the capture emits: it is not a header and it is not blank. *)
Definition emitted (keywords : list string) (line : string) : bool :=
  negb (isKeywordLine keywords line) && truthy (trim line).

(** A line that ends the capture and is not emitted: a line that is not a
    header and meets one of the two stop conditions (a header-like line
    about documentation, references or links; a numbered section naming
    no keyword). *)
Definition endsCapture (keywords : list string) (line : string) : bool :=
  negb (isKeywordLine keywords line)
  && (hitsReferences line || hitsOtherSection keywords line).

(** The capture runs through the lines [segment], which [after] follow:
    none of them ends the capture, and no emitted line has two blank lines
    right after it. *)
Fixpoint runsThrough (keywords : list string) (segment after : list string)
  : bool :=
  match segment with
  | [] => true
  | line :: segment' =>
      negb (endsCapture keywords line)
      && negb (emitted keywords line
               && twoBlankAhead (segment' ++ after)%list)
      && runsThrough keywords segment' after
  end.

(** The three ways the capture ends, at the lines [after] that follow
    the segment it ran through: at the end of the text; at a line that
    ends the capture and is not emitted; or right after an emitted line
    that meets no stop condition and is followed by two blank lines.
    [final] holds the lines of [after] that are still emitted: that last
    line in the third case, none in the other two. *)
Inductive CaptureEnd (keywords : list string)
  : list string -> list string -> Prop :=
| EndOfText : CaptureEnd keywords [] []
| StopLine (stop : string) (after : list string) :
    endsCapture keywords stop = true ->
    CaptureEnd keywords (stop :: after) []
| TwoBlankLines (last : string) (after : list string) :
    emitted keywords last = true ->
    endsCapture keywords last = false ->
    twoBlankAhead after = true ->
    CaptureEnd keywords (last :: after) [last].

(** The loop of [extractSection] as the specification words it: only the
    first header is a header; once capturing, a later header-like line is
    a line like any other. *)
Fixpoint scanLinesFirstHeaderOnly (keywords : list string)
    (capturing : bool) (result : list string) (lines : list string)
  : list string :=
  match lines with
  | [] => result
  | line :: rest =>
      if negb capturing && isKeywordLine keywords line then
        scanLinesFirstHeaderOnly keywords true result rest
      else if capturing && hitsReferences line then result
      else if capturing && hitsOtherSection keywords line then result
      else if capturing && truthy (trim line) then
        let result' := (result ++ [trim line])%list in
        if twoBlankAhead rest then result'
        else scanLinesFirstHeaderOnly keywords capturing result' rest
      else scanLinesFirstHeaderOnly keywords capturing result rest
  end.

Definition capturedLinesFirstHeaderOnly (content : string)
    (keywords : list string) : list string :=
  scanLinesFirstHeaderOnly keywords false [] (split_lines content).

(** *** Words about the references *)

(** The text cut at every white space character: the pieces between
    them, in order (a piece may be empty). *)
Fixpoint pieces (s : string) : list string :=
  match s with
  | EmptyString => [EmptyString]
  | String c r =>
      if isWhiteSpace c then EmptyString :: pieces r
      else match pieces r with
           | h :: t => String c h :: t
           | [] => [String c EmptyString]
           end
  end.

(** "Starting with http:// or https://". *)
Definition startsWithScheme (s : string) : bool :=
  startsWith "http://" s || startsWith "https://" s.

(** Starting with http:// or https:// and holding at least one more
    character. *)
Definition startsUrl (s : string) : bool :=
  (startsWith "http://" s && (7 <? String.length s)%nat)
  || (startsWith "https://" s && (8 <? String.length s)%nat).

(** The substring of a piece that begins where [starts] first holds and
    runs to the end of the piece, that is to the next white space: no
    other substring of the piece that begins where [starts] holds and
    runs to the next white space is longer.  The result has one element,
    or none. *)
Fixpoint suffixFrom (starts : string -> bool) (piece : string)
  : list string :=
  if starts piece then [piece]
  else match piece with
       | EmptyString => []
       | String _ r => suffixFrom starts r
       end.

(** These substrings for the whole text, in the order of the text, none
    dropped. *)
Definition urlSubstrings (starts : string -> bool) (text : string)
  : list string :=
  flat_map (suffixFrom starts) (pieces text).

(** A string without white space. *)
Fixpoint solid (s : string) : bool :=
  match s with
  | EmptyString => true
  | String c r => notWhiteSpace c && solid r
  end.

Fixpoint allPunct (s : string) : bool :=
  match s with
  | EmptyString => true
  | String c r => isTrailingPunct c && allPunct r
  end.

Fixpoint endsWithPunct (s : string) : bool :=
  match s with
  | EmptyString => false
  | String c EmptyString => isTrailingPunct c
  | String _ r => endsWithPunct r
  end.

(** *** Words about the retries *)

(** The attempt numbers [first], [first + 1], ... ([count] of them). *)
Fixpoint attemptsFrom (first : Z) (count : nat) : list Z :=
  match count with
  | O => []
  | S count' => first :: attemptsFrom (first + 1) count'
  end.

(** The backoff after the failed attempt numbered [attempt]. *)
Definition backoffDelay (attempt : Z) : Z := 1000 * 2 ^ attempt.

(** [count] failed attempts in a row from attempt [first], each followed
    by its backoff before the next attempt. *)
Definition failedAttempts (args : FixError.CallArgs) (first : Z)
    (count : nat) : list FixError.Event :=
  flat_map (fun attempt =>
              [FixError.CallOpenAI args;
               FixError.Sleep (backoffDelay attempt)])
           (attemptsFrom first count).

Definition total (delays : list Z) : Z := fold_right Z.add 0%Z delays.

(** *** Words about the orchestration *)

(** The arguments [fixError] calls the provider with, for the
    normalised error [errorObj]. *)
Definition requestArgs (config : Init.Config) (errorObj : Exn.JsError)
  : FixError.CallArgs :=
  {| FixError.argApiKey := Init.apiKey config;
     FixError.argModel := Init.model config;
     FixError.argErrorMessage :=
       if Js.truthy (Exn.message errorObj) then Exn.message errorObj
       else "Unknown error";
     FixError.argStackTrace :=
       if Exn.stackTruthy (Exn.stack errorObj) then Exn.stack errorObj
       else Exn.StackText "No stack trace available";
     FixError.argTimeout := Init.timeout config |}.

(** The record built in the [catch] block of [fixError], for the
    normalised error [errorObj]. *)
Definition failureRecord (errorObj : Exn.JsError) (reason : string)
  : FixError.ReturnValue :=
  FixError.ReturnFailure
    {| FixError.error_name := Exn.name errorObj;
       FixError.error_message := Exn.message errorObj;
       FixError.error_stack := Exn.stack errorObj |}
    reason.

End Described.

(** ** Provider stubs *)

Module Stubs.
Import Exn FixError.

Definition digit (n : nat) : string :=
  String (ascii_of_nat (48 + n)) EmptyString.

(** A provider that fails on every invocation; the cause tells which. *)
Definition alwaysFails : Provider :=
  fun _ n => Thrown (newError ("request failed, invocation " ++ digit n)).

Definition sampleResponse : Response :=
  {| content := ContentText OpenaiCurl.exampleCompletion;
     responseModel := "gpt-4o-mini";
     usage := None |}.

(** A provider whose answer has the content [null]. *)
Definition refuses : Provider :=
  fun _ _ =>
    Normal {| content := ContentNull; responseModel := "gpt-4o-mini";
              usage := None |}.

(** [Object.create(null)]: an object with no property at all, which
    [String] cannot convert. *)
Definition bareObject : ErrorInput :=
  PlainRecord None None None
    (Unrenderable (typeError "Cannot convert object to primitive value")).

(** A provider that fails [failures] times, then succeeds. *)
Definition failsThenSucceeds (failures : nat) : Provider :=
  fun _ n =>
    if (n <? failures)%nat
    then Thrown (newError ("request failed, invocation " ++ digit n))
    else Normal sampleResponse.

(** The configuration after
    [initAutoErrorSolution({apiKey: 'sk-test', maxRetries: 2})]. *)
Definition readyConfig : Init.Config :=
  {| Init.apiKey := Some "sk-test"; Init.model := "gpt-4o-mini";
     Init.timeout := 30000; Init.maxRetries := 2;
     Init.initialized := true |}.

Definition sampleArgs : CallArgs :=
  {| argApiKey := Some "sk-test"; argModel := "gpt-4o-mini";
     argErrorMessage := "x is not defined";
     argStackTrace := Exn.EngineStack "x is not defined";
     argTimeout := 30000 |}.

End Stubs.

(** ** fixError.js: the wrapper and the global handlers *)

Module Handlers.
Import Exn Init FixError.

(** How a function of the user ends: with a value, or by throwing a
    value of any kind. *)
Inductive outcome (A : Type) :=
| Returned (a : A)
| Raised (thrown : ErrorInput).
Arguments Returned {A} a.
Arguments Raised {A} thrown.

(** A function of the user, applied to its arguments: it may act on the
    world (it may itself call [fixError]). *)
Definition Action (A : Type) : Type := World -> outcome A * World.

(** [wrapWithErrorHandler(fn)], for the provider behind [callOpenAI] and
    the module-level [config] at the time the [catch] block runs:
    [try { return await fn(...args) }
     catch (error) { await fixError(error); throw error }]. *)
Definition wrapWithErrorHandler {Args A : Type}
    (provider : Provider) (config : Config) (fn : Args -> Action A)
  : Args -> Action A :=
  fun args w =>
    match fn args w with
    | (Returned a, w1) => (Returned a, w1)
    | (Raised error, w1) =>
        match fixError provider config error OptionsUndefined w1 with
        | (Normal _, w2) => (Raised error, w2)
        | (Thrown e, w2) => (Raised (ErrorObject e), w2)
        end
    end.

(** The three console lines of [setupGlobalHandler]; their texts start
    with characters above code unit 255. *)
Inductive Banner :=
| UncaughtExceptionBanner     (* '\n.. Uncaught Exception:' *)
| UnhandledRejectionBanner    (* '\n.. Unhandled Promise Rejection:' *)
| HandlersRegisteredBanner.   (* '.. Global error handlers registered' *)

(** What the process does, in order: the events of the analyses, the
    console lines of the handlers, and the end of the process. *)
Inductive ProcessEvent :=
| Analysis (e : Event)
| ConsoleError (banner : Banner)
| ConsoleLog (banner : Banner)
| ProcessExit (code : Z).

Definition ProcessTrace : Type := list ProcessEvent.

(** The events of the analyses in a process trace. *)
Fixpoint analysisEvents (trace : ProcessTrace) : World :=
  match trace with
  | [] => []
  | Analysis e :: trace' => e :: analysisEvents trace'
  | _ :: trace' => analysisEvents trace'
  end.

(** [await fixError(error)] inside a process: it sees the analysis
    events so far and adds its own. *)
Definition awaitFixError (provider : Provider) (config : Config)
    (error : ErrorInput) (trace : ProcessTrace)
  : completion ReturnValue * ProcessTrace :=
  let w := analysisEvents trace in
  let r := fixError provider config error OptionsUndefined w in
  (fst r, (trace ++ map Analysis (skipn (List.length w) (snd r)))%list).

(** The end of both handlers: [if (exitOnError) process.exit(1)]; a
    throw of [fixError] would leave the handler before that. *)
Definition thenExit (exitOnError : bool)
    (r : completion ReturnValue * ProcessTrace)
  : completion unit * ProcessTrace :=
  match r with
  | (Normal _, trace) =>
      (Normal tt,
       if exitOnError then (trace ++ [ProcessExit 1])%list else trace)
  | (Thrown e, trace) => (Thrown e, trace)
  end.

(** The listener for ['uncaughtException']. *)
Definition onUncaughtException (provider : Provider) (config : Config)
    (exitOnError : bool) (error : ErrorInput) (trace : ProcessTrace)
  : completion unit * ProcessTrace :=
  thenExit exitOnError
    (awaitFixError provider config error
       (trace ++ [ConsoleError UncaughtExceptionBanner])%list).

(** The listener for ['unhandledRejection']:
    [reason instanceof Error ? reason : new Error(String(reason))]. *)
Definition onUnhandledRejection (provider : Provider) (config : Config)
    (exitOnError : bool) (reason : ErrorInput) (trace : ProcessTrace)
  : completion unit * ProcessTrace :=
  let trace := (trace ++ [ConsoleError UnhandledRejectionBanner])%list in
  let error :=
    match reason with
    | ErrorObject e => Normal e
    | StringValue s => Normal (newError s)
    | PlainRecord _ _ _ (Renders text) => Normal (newError text)
    | PlainRecord _ _ _ (Unrenderable thrown) => Thrown thrown
    | OtherValue (Renders text) => Normal (newError text)
    | OtherValue (Unrenderable thrown) => Thrown thrown
    end in
  match error with
  | Normal error =>
      thenExit exitOnError
        (awaitFixError provider config (ErrorObject error) trace)
  | Thrown thrown => (Thrown thrown, trace)
  end.

(** The argument of [setupGlobalHandler]: left out, [null], or a value
    with a truthy or falsy (or absent) [exitOnError] property. *)
Inductive HandlerOptions :=
| HandlerOptionsUndefined
| HandlerOptionsNull
| HandlerOptionsObject (exitOnError : bool).

(** The listeners [setupGlobalHandler] registers; each is given the
    provider and the module-level [config] at the time it runs. *)
Record Listeners := {
  uncaughtException :
    Provider -> Config -> ErrorInput -> ProcessTrace
    -> completion unit * ProcessTrace;
  unhandledRejection :
    Provider -> Config -> ErrorInput -> ProcessTrace
    -> completion unit * ProcessTrace
}.

(** [setupGlobalHandler(options)].  Destructuring [null] throws a
    [TypeError]. *)
Definition setupGlobalHandler (options : HandlerOptions)
    (trace : ProcessTrace) : completion Listeners * ProcessTrace :=
  let register exitOnError :=
    (Normal
       {| uncaughtException := fun provider config =>
            onUncaughtException provider config exitOnError;
          unhandledRejection := fun provider config =>
            onUnhandledRejection provider config exitOnError |},
     (trace ++ [ConsoleLog HandlersRegisteredBanner])%list) in
  match options with
  | HandlerOptionsUndefined => register false
  | HandlerOptionsNull =>
      (Thrown
         (typeError "Cannot read properties of null (reading 'exitOnError')"),
       trace)
  | HandlerOptionsObject exitOnError => register exitOnError
  end.

End Handlers.

(** ** logger.js: the console report *)

Module Logger.
Import Js Exn OpenaiCurl.

Definition ESC : ascii := "027"%char.

(** The ANSI colour codes of [colors]. *)
Definition reset : string := String ESC "[0m".
Definition bright : string := String ESC "[1m".
Definition dim : string := String ESC "[2m".
Definition red : string := String ESC "[31m".
Definition green : string := String ESC "[32m".
Definition yellow : string := String ESC "[33m".
Definition blue : string := String ESC "[34m".
Definition magenta : string := String ESC "[35m".
Definition cyan : string := String ESC "[36m".
Definition white : string := String ESC "[37m".
Definition gray : string := String ESC "[90m".

(** [[a-z]] *)
Definition isLowerAZ (c : ascii) : bool :=
  (97 <=? code c)%nat && (code c <=? 122)%nat.

(** [trimmed.match(/^[a-z]+\(/)] *)
Definition startsCall (trimmed : string) : bool :=
  match trimmed with
  | String c r =>
      isLowerAZ c &&
      match dropWhile isLowerAZ r with
      | String d _ => Ascii.eqb d "("
      | EmptyString => false
      end
  | EmptyString => false
  end.

(** [trimmed.match(/^[-.*]\s/)], where the second character of the class
    is the bullet U+2022, which no string of this alphabet holds. *)
Definition startsBullet (trimmed : string) : bool :=
  match trimmed with
  | String c (String s _) =>
      (Ascii.eqb c "-" || Ascii.eqb c "*") && isWhiteSpace s
  | _ => false
  end.

(** [trimmed.match(/^\d+\.\s/)] *)
Definition startsNumberedItem (trimmed : string) : bool :=
  match trimmed with
  | String c r =>
      isDigit c &&
      match dropWhile isDigit r with
      | String d (String s _) => Ascii.eqb d "." && isWhiteSpace s
      | _ => false
      end
  | EmptyString => false
  end.

(** The function mapped over the lines in [formatText]. *)
Definition formatLine (color : string) (line : string) : string :=
  let trimmed := trim line in
  if negb (truthy trimmed) then ""
  else if startsWith "```" trimmed || startsCall trimmed then
    "  " ++ dim ++ trimmed ++ reset
  else if startsBullet trimmed then
    "  " ++ color ++ trimmed ++ reset
  else if startsNumberedItem trimmed then
    "  " ++ color ++ trimmed ++ reset
  else
    "  " ++ color ++ trimmed ++ reset.

(** [formatText(text, color)] *)
Definition formatText (text : string) (color : string) : string :=
  join_lines (map (formatLine color) (split_lines text)).

(** The pictograms at the head of the report's lines: their code units
    are above 255, so they are kept as parameters. *)
Record Glyphs := {
  crossMark : string;
  brain : string;
  warningSign : string;
  wrench : string;
  books : string;
  lightBulb : string
}.

(** ['='.repeat(80)] *)
Definition rule : string :=
  "================================================================================".

(** [logErrorAnalysis(error, analysis)]: the arguments of its
    [console.log] calls, in order. *)
Definition logErrorAnalysis (glyphs : Glyphs) (error : JsError)
    (analysis : StructuredAnalysis) : list string :=
  List.app
    [String LF rule;
     red ++ bright ++ crossMark glyphs ++ " Error Detected: "
       ++ (if truthy (name error) then name error else "Error") ++ reset;
     red ++ message error ++ reset;
     ""]
  (List.app
    (if truthy (explanation analysis) then
       [cyan ++ bright ++ brain glyphs ++ " AI Explanation:" ++ reset;
        formatText (explanation analysis) white;
        ""]
     else [])
  (List.app
    (if truthy (causes analysis) then
       [yellow ++ bright ++ warningSign glyphs ++ "  Likely Causes:"
          ++ reset;
        formatText (causes analysis) yellow;
        ""]
     else [])
  (List.app
    (if truthy (fixes analysis) then
       [green ++ bright ++ wrench glyphs ++ " Suggested Fixes:" ++ reset;
        formatText (fixes analysis) green;
        ""]
     else [])
  (List.app
    (match references analysis with
     | [] => []
     | refs =>
         List.app
           [blue ++ bright ++ books glyphs ++ " References:" ++ reset]
           (List.app
              (map (fun ref => blue ++ "  - " ++ ref ++ reset) refs)
              [""])
     end)
    [gray ++ dim ++ lightBulb glyphs
       ++ " Note: AI suggestions may not be 100% accurate. Always verify fixes before applying."
       ++ reset;
     rule ++ String LF EmptyString])))).

End Logger.

(** ** openaiCurl.js: parts of callOpenAI *)

Module Curl.
Import Js.

Definition quote : ascii := "034"%char.
Definition backslash : ascii := "092"%char.

(** [payloadJson.replace(/"/g, '\\"')]: a backslash is put before every
    double quote. *)
Fixpoint escapeQuotes (payloadJson : string) : string :=
  match payloadJson with
  | EmptyString => EmptyString
  | String c r =>
      if Ascii.eqb c quote
      then String backslash (String quote (escapeQuotes r))
      else String c (escapeQuotes r)
  end.

(** What the [catch] block of [callOpenAI] looks at in the value it
    caught.  [exec] sets [killed] and [signal] on the error it rejects
    with; on an error thrown inside the [try] block they are absent:
    [killed] is then falsy. *)
Record Failure := {
  killed : bool;
  signal : option string;
  failureMessage : string
}.

(** [new Error(message)], as the [catch] block sees it. *)
Definition thrownInTry (message : string) : Failure :=
  {| killed := false; signal := None; failureMessage := message |}.

(** [`${timeout}`] for an integer (below 10^21 in absolute value). *)
Definition showInteger (n : Z) : string :=
  NilZero.string_of_int (Z.to_int n).

(** The [catch] block of [callOpenAI]: the error that leaves the
    function for the error caught. *)
Definition rethrow (timeout : Z) (error : Failure) : Failure :=
  if killed error
     && match signal error with
        | Some sig => String.eqb sig "SIGTERM"
        | None => false
        end
  then thrownInTry
         ("OpenAI API request timed out after " ++ showInteger timeout
            ++ "ms")
  else if includes "curl" (failureMessage error)
          && includes "not recognized" (failureMessage error)
  then thrownInTry
         "curl is not installed or not in PATH. Please install curl to use this package."
  else error.

(** [if (stderr && !stdout) throw new Error(`curl error: ${stderr}`)],
    caught by the [catch] block of the same function. *)
Definition curlFailure (timeout : Z) (stdout stderr : string)
  : option Failure :=
  if truthy stderr && negb (truthy stdout)
  then Some (rethrow timeout (thrownInTry ("curl error: " ++ stderr)))
  else None.

(** [throw new Error(`OpenAI API error: ${text}`)] for the text of the
    error the API reports, caught by the same [catch] block. *)
Definition apiFailure (timeout : Z) (text : string) : Failure :=
  rethrow timeout (thrownInTry ("OpenAI API error: " ++ text)).

End Curl.

(** ** Further vocabulary *)

Module Vocabulary.
Import Js.

(** [s] cut at every character that satisfies [sep]: [split_lines] is
    this for the line feed, [Described.pieces] for the white space. *)
Fixpoint splitAt (sep : ascii -> bool) (s : string) : list string :=
  match s with
  | EmptyString => [EmptyString]
  | String c r =>
      if sep c then EmptyString :: splitAt sep r
      else match splitAt sep r with
           | h :: t => String c h :: t
           | [] => [String c EmptyString]
           end
  end.

Definition isLF (c : ascii) : bool := Ascii.eqb c LF.

(** No character of [s] satisfies [p]. *)
Fixpoint without (p : ascii -> bool) (s : string) : bool :=
  match s with
  | EmptyString => true
  | String c r => negb (p c) && without p r
  end.

(** A string that holds no line feed. *)
Definition singleLine (s : string) : bool := without isLF s.

(** [xs] is [ys] with some elements left out, the order kept. *)
Inductive Subsequence {A : Type} : list A -> list A -> Prop :=
| sub_nil (ys : list A) : Subsequence [] ys
| sub_keep (x : A) (xs ys : list A) :
    Subsequence xs ys -> Subsequence (x :: xs) (x :: ys)
| sub_skip (y : A) (xs ys : list A) :
    Subsequence xs ys -> Subsequence xs (y :: ys).

(** The first and the last character of a string, when there is one. *)
Definition firstChar (s : string) : option ascii :=
  match s with
  | EmptyString => None
  | String c _ => Some c
  end.

Fixpoint lastChar (s : string) : option ascii :=
  match s with
  | EmptyString => None
  | String c EmptyString => Some c
  | String _ r => lastChar r
  end.

(** A string [trim] leaves as it is: no white space at either end. *)
Definition trimmed (s : string) : bool :=
  match firstChar s, lastChar s with
  | Some a, Some b => negb (isWhiteSpace a) && negb (isWhiteSpace b)
  | _, _ => true
  end.

(** A character that lower-casing neither changes nor produces. *)
Definition lowerStable (c : ascii) : Prop :=
  forall d, Ascii.eqb c (toLowerChar d) = Ascii.eqb c d.

Fixpoint allStable (p : string) : Prop :=
  match p with
  | EmptyString => True
  | String c r => lowerStable c /\ allStable r
  end.

(** A report on the console. *)
Definition isReport (e : FixError.Event) : bool :=
  match e with
  | FixError.LogErrorAnalysis _ _ => true
  | FixError.LogAnalysisFailure _ _ => true
  | _ => false
  end.

(** Number of reports so far. *)
Definition reportCount (w : FixError.World) : nat :=
  List.length (filter isReport w).

(** The record [fixError] returns in silent mode from a response, for
    the normalised error [errorObj]: the analysis of a content that is
    a string, and the failure record with the message of the
    [TypeError] of [content.split] for any other content. *)
Definition analysisRecord (errorObj : Exn.JsError)
    (response : FixError.Response) : FixError.ReturnValue :=
  match FixError.parseContent (FixError.content response) with
  | Exn.Normal analysis =>
      FixError.ReturnAnalysis
        {| FixError.error_name := Exn.name errorObj;
           FixError.error_message :=
             if Js.truthy (Exn.message errorObj) then Exn.message errorObj
             else "Unknown error";
           FixError.error_stack :=
             if Exn.stackTruthy (Exn.stack errorObj) then Exn.stack errorObj
             else Exn.StackText "No stack trace available" |}
        analysis
        (FixError.responseModel response) (FixError.usage response)
  | Exn.Thrown parseError =>
      Described.failureRecord errorObj (Exn.message parseError)
  end.

(** The report [fixError] prints from a response, for the normalised
    error [errorObj]. *)
Definition reportOf (errorObj : Exn.JsError) (response : FixError.Response)
  : FixError.Event :=
  match FixError.parseContent (FixError.content response) with
  | Exn.Normal analysis => FixError.LogErrorAnalysis errorObj analysis
  | Exn.Thrown parseError =>
      FixError.LogAnalysisFailure errorObj (Exn.message parseError)
  end.

(** [fixError] raises: its promise rejects. *)
Definition raises {A : Type} (result : Exn.completion A * FixError.World)
  : Prop :=
  exists thrown, fst result = Exn.Thrown thrown.

(** [fixError] returns: its promise resolves. *)
Definition returns {A : Type} (result : Exn.completion A * FixError.World)
  : Prop :=
  exists value, fst result = Exn.Normal value.

(** An event of the retry loop for the arguments [args]. *)
Definition retryEventWith (args : FixError.CallArgs) (e : FixError.Event)
  : Prop :=
  match e with
  | FixError.CallOpenAI a => a = args
  | FixError.Sleep _ => True
  | _ => False
  end.

(** The error thrown by [options.silent] when [options] is [null]. *)
Definition nullOptionsError : Exn.JsError :=
  {| Exn.name := "TypeError";
     Exn.message := "Cannot read properties of null (reading 'silent')";
     Exn.stack :=
       Exn.EngineStack "Cannot read properties of null (reading 'silent')" |}.

(** How the [catch] block of [fixError] ends for the caught
    [analysisError]. *)
Definition catchOutcome (errorObj : Exn.JsError)
    (options : FixError.OptionsArg) (analysisError : Exn.JsError)
    (w : FixError.World)
  : Exn.completion FixError.ReturnValue * FixError.World :=
  match options with
  | FixError.OptionsObject true =>
      (Exn.Normal (Described.failureRecord errorObj
                     (Exn.message analysisError)), w)
  | FixError.OptionsNull => (Exn.Thrown nullOptionsError, w)
  | _ =>
      (Exn.Normal FixError.ReturnNull,
       (w ++ [FixError.LogAnalysisFailure errorObj
                (Exn.message analysisError)])%list)
  end.

(** The error a report is about. *)
Definition reportSubject (e : FixError.Event) : option Exn.JsError :=
  match e with
  | FixError.LogErrorAnalysis errorObj _ => Some errorObj
  | FixError.LogAnalysisFailure errorObj _ => Some errorObj
  | _ => None
  end.

(** A line [formatText] shows as code: it starts with three backquotes
    or with lower-case letters and an opening parenthesis. *)
Definition isCodeLine (trimmed : string) : bool :=
  startsWith "```" trimmed || Logger.startsCall trimmed.

(** How [formatText] shows one line. *)
Definition shownLine (color : string) (line : string) : string :=
  if truthy (trim line) then
    "  " ++ (if isCodeLine (trim line) then Logger.dim else color)
      ++ trim line ++ Logger.reset
  else "".

(** The reverse of [Curl.escapeQuotes]: a backslash right before a
    double quote is taken out. *)
Fixpoint unescapeQuotes (s : string) : string :=
  match s with
  | EmptyString => EmptyString
  | String c r =>
      match r with
      | String d r' =>
          if Ascii.eqb c Curl.backslash && Ascii.eqb d Curl.quote
          then String d (unescapeQuotes r')
          else String c (unescapeQuotes r)
      | EmptyString => String c EmptyString
      end
  end.

(** Every double quote of [s] comes right after a backslash. *)
Fixpoint quotesEscaped (previous : option ascii) (s : string) : bool :=
  match s with
  | EmptyString => true
  | String c r =>
      (negb (Ascii.eqb c Curl.quote)
       || match previous with
          | Some b => Ascii.eqb b Curl.backslash
          | None => false
          end)
      && quotesEscaped (Some c) r
  end.

End Vocabulary.

(** ** init.js as a state machine *)

Module InitState.
Import Exn Init.

(** The module-level [config] after [initAutoErrorSolution(options)]:
    the throw for a missing key comes before any assignment, so a call
    that throws leaves [config] as it was. *)
Definition configAfterInit (options : InitArg) (config : Config)
  : Config :=
  match initAutoErrorSolution options config with
  | Normal config' => config'
  | Thrown _ => config
  end.

(** The calls that write [config]. *)
Inductive Call :=
| CallInit (options : InitArg)
| CallReset.

Definition configAfter (call : Call) (config : Config) : Config :=
  match call with
  | CallInit options => configAfterInit options config
  | CallReset => resetConfig config
  end.

(** [config] after a sequence of calls, the first call first, from the
    value it has when the module is loaded. *)
Definition configAfterAll (calls : list Call) : Config :=
  fold_left (fun config call => configAfter call config) calls
            initialConfig.

End InitState.

(** * Properties *)

Import Js OpenaiCurl Described.

(** ** The section extractor *)

Section SectionExtractor.

Variable keywords : list string.

Let noHeader (line : string) : Prop := isKeywordLine keywords line = false.

(** While no header has been met, lines that are not headers leave the
    loop's variables as they are. *)
Lemma scanLines_skips_before_header (pre rest result : list string) :
  Forall noHeader pre ->
  scanLines keywords false result (pre ++ rest)
  = scanLines keywords false result rest.
Proof.
  induction 1 as [|line pre Hline _ IH]; simpl; [reflexivity|].
  unfold noHeader in Hline. rewrite Hline. simpl. exact IH.
Qed.

Lemma scanLines_never_capturing (lines result : list string) :
  Forall noHeader lines ->
  scanLines keywords false result lines = result.
Proof.
  intros H. rewrite <- (app_nil_r lines).
  rewrite scanLines_skips_before_header by exact H. reflexivity.
Qed.

Lemma append_dots_nonempty (s : string) : s ++ "..." <> "".
Proof. destruct s; discriminate. Qed.

Lemma truthy_true_nonempty (s : string) : truthy s = true -> s <> "".
Proof. destruct s; [discriminate | intros _; discriminate]. Qed.

Lemma extractSection_nonempty (content : string) :
  extractSection content keywords <> "".
Proof.
  unfold extractSection.
  destruct (truthy (join_lines (capturedLines content keywords))) eqn:E.
  - apply truthy_true_nonempty, E.
  - apply append_dots_nonempty.
Qed.

Lemma scanLines_at_header (capturing : bool) (header : string)
    (rest result : list string) :
  isKeywordLine keywords header = true ->
  scanLines keywords capturing result (header :: rest)
  = scanLines keywords true result rest.
Proof. intros H. simpl. rewrite H. reflexivity. Qed.

(** From the first header on, the loop is capturing. *)
Lemma scanLines_from_first_header (pre : list string) (header : string)
    (rest : list string) :
  Forall noHeader pre ->
  isKeywordLine keywords header = true ->
  scanLines keywords false [] (pre ++ header :: rest)
  = scanLines keywords true [] rest.
Proof.
  intros Hpre Hh.
  rewrite scanLines_skips_before_header by exact Hpre.
  apply scanLines_at_header, Hh.
Qed.

Lemma truthy_false_empty (s : string) : truthy s = false <-> s = "".
Proof. destruct s; simpl; split; congruence. Qed.

Lemma truthy_true_iff (s : string) : truthy s = true <-> s <> "".
Proof. destruct s; simpl; split; congruence. Qed.

(** A line the loop emits while capturing, with no stop at it. *)
Lemma scanLines_emit (line : string) (rest result : list string) :
  isKeywordLine keywords line = false ->
  hitsReferences line = false ->
  hitsOtherSection keywords line = false ->
  truthy (trim line) = true ->
  scanLines keywords true result (line :: rest)
  = if twoBlankAhead rest then (result ++ [trim line])%list
    else scanLines keywords true (result ++ [trim line])%list rest.
Proof.
  intros Hk Hr Ho Ht. simpl. rewrite Hk, Hr, Ho, Ht. reflexivity.
Qed.

(** The capture through a segment with no stop in it, up to one of the
    three ends. *)
Lemma scanLines_capture (segment after final result : list string) :
  runsThrough keywords segment after = true ->
  CaptureEnd keywords after final ->
  scanLines keywords true result (segment ++ after)
  = (result ++ map trim (filter (emitted keywords) segment)
       ++ map trim final)%list.
Proof.
  intros Hrun Hafter. revert result Hrun.
  induction segment as [|line segment IH]; intros result Hrun.
  - cbn [app filter map].
    destruct Hafter as [| stop after Hstop | last after Hlast Hend Hblank].
    + cbn [map scanLines]. rewrite app_nil_r. reflexivity.
    + unfold endsCapture in Hstop.
      apply andb_true_iff in Hstop as [Hk Hstop].
      apply negb_true_iff in Hk. simpl. rewrite Hk.
      rewrite app_nil_r.
      apply orb_true_iff in Hstop as [-> | Ho]; [reflexivity|].
      rewrite Ho. destruct (hitsReferences stop); reflexivity.
    + unfold emitted in Hlast. unfold endsCapture in Hend.
      apply andb_true_iff in Hlast as [Hk Ht].
      apply negb_true_iff in Hk. rewrite Hk in Hend.
      cbn [negb andb] in Hend.
      apply orb_false_iff in Hend as [Hr Ho].
      rewrite scanLines_emit by assumption.
      rewrite Hblank. reflexivity.
  - simpl in Hrun.
    apply andb_true_iff in Hrun as [Hrun Hrest].
    apply andb_true_iff in Hrun as [Hend Hsoft].
    apply negb_true_iff in Hend. apply negb_true_iff in Hsoft.
    unfold endsCapture in Hend. unfold emitted in Hsoft |- *.
    change ((line :: segment) ++ after)%list
      with (line :: (segment ++ after))%list.
    cbn [filter].
    destruct (isKeywordLine keywords line) eqn:Hk.
    + rewrite scanLines_at_header by exact Hk. cbn [negb andb].
      apply IH, Hrest.
    + cbn [negb andb] in Hend, Hsoft |- *.
      apply orb_false_iff in Hend as [Hr Ho].
      destruct (truthy (trim line)) eqn:Ht.
      * rewrite scanLines_emit by assumption.
        cbn [andb] in Hsoft. rewrite Hsoft.
        rewrite IH by exact Hrest.
        cbn [map]. rewrite <- !app_assoc. reflexivity.
      * simpl. rewrite Hk, Hr, Ho, Ht. simpl. apply IH, Hrest.
Qed.

(** A text with a header line has a first one. *)
Lemma first_header (lines : list string) :
  Exists (fun line => isKeywordLine keywords line = true) lines ->
  exists pre header rest,
    lines = (pre ++ header :: rest)%list
    /\ Forall noHeader pre
    /\ isKeywordLine keywords header = true.
Proof.
  induction lines as [|line lines IH]; intros Hexists.
  - inversion Hexists.
  - destruct (isKeywordLine keywords line) eqn:Hk.
    + exists [], line, lines. repeat split; [constructor | exact Hk].
    + destruct IH as (pre & header & rest & -> & Hpre & Hh).
      * inversion Hexists as [? ? Hhere | ? ? Hlater]; subst;
          [congruence | exact Hlater].
      * exists (line :: pre), header, rest.
        repeat split; [constructor; assumption | exact Hh].
Qed.

(** Any lines split into a segment the capture runs through and one of
    the three ends. *)
Lemma capture_ends (rest : list string) :
  exists segment after final,
    rest = (segment ++ after)%list
    /\ runsThrough keywords segment after = true
    /\ CaptureEnd keywords after final.
Proof.
  induction rest as [|line rest IH].
  - exists [], [], []. repeat split. constructor.
  - destruct (endsCapture keywords line) eqn:Hend.
    + exists [], (line :: rest), []. repeat split.
      constructor. exact Hend.
    + destruct (emitted keywords line && twoBlankAhead rest) eqn:Hsoft.
      * apply andb_true_iff in Hsoft as [Hemit Hblank].
        exists [], (line :: rest), [line]. repeat split.
        constructor; assumption.
      * destruct IH as (segment & after & final & -> & Hrun & Hafter).
        exists (line :: segment), after, final.
        split; [reflexivity|]. split; [|exact Hafter].
        cbn [runsThrough]. rewrite Hend, Hsoft, Hrun. reflexivity.
Qed.

(** A block of plain lines closed by two blank lines: the loop emits the
    block and stops. *)
Lemma scanLines_block (block : list string) (b1 b2 : string)
    (post result : list string) :
  block <> [] ->
  Forall (fun line =>
            trim line <> ""
            /\ isKeywordLine keywords line = false
            /\ hitsReferences line = false
            /\ hitsOtherSection keywords line = false) block ->
  trim b1 = "" -> trim b2 = "" ->
  scanLines keywords true result (block ++ b1 :: b2 :: post)
  = (result ++ map trim block)%list.
Proof.
  intros Hne Hblock Hb1 Hb2. revert result.
  induction Hblock as [|line block (Ht & Hk & Hr & Ho) Hblock IH];
    intros result; [congruence|].
  apply truthy_true_iff in Ht.
  change ((line :: block) ++ b1 :: b2 :: post)%list
    with (line :: (block ++ b1 :: b2 :: post))%list.
  rewrite scanLines_emit by assumption.
  destruct block as [|next block].
  - simpl. rewrite Hb1, Hb2. reflexivity.
  - inversion Hblock as [|? ? (Hnext & _) _]; subst.
    apply truthy_true_iff in Hnext.
    replace (twoBlankAhead ((next :: block) ++ b1 :: b2 :: post)) with false
      by (cbn [app twoBlankAhead]; rewrite Hnext;
          destruct (block ++ b1 :: b2 :: post)%list; reflexivity).
    rewrite IH by discriminate.
    cbn [map]. rewrite <- app_assoc. reflexivity.
Qed.

Lemma join_lines_truthy (first : string) (others : list string) :
  truthy first = true -> truthy (join_lines (first :: others)) = true.
Proof.
  intros H. destruct first; [discriminate|].
  unfold join_lines. simpl. destruct others; reflexivity.
Qed.

End SectionExtractor.

(** C1. On the end-to-end example text, [parseAIResponse] gives the
    explanation "Null pointer when object is undefined.", a causes text
    that contains both bullet lines, a fixes text that contains the fix
    bullet, and the single reference https://example.com/docs. *)
Theorem parseAIResponse_example :
  explanation (parseAIResponse exampleCompletion)
    = "Null pointer when object is undefined."
  /\ includes "- Missing initialization"
       (causes (parseAIResponse exampleCompletion)) = true
  /\ includes "- Async timing issue"
       (causes (parseAIResponse exampleCompletion)) = true
  /\ includes "- Add a null check"
       (fixes (parseAIResponse exampleCompletion)) = true
  /\ references (parseAIResponse exampleCompletion)
     = ["https://example.com/docs"].
Proof. repeat split; vm_compute; reflexivity. Qed.

(** The same with a newline after the last line of the example. *)
Lemma parseAIResponse_example_final_newline :
  let analysis :=
    parseAIResponse (exampleCompletion ++ String LF EmptyString) in
  explanation analysis = explanation (parseAIResponse exampleCompletion)
  /\ causes analysis = causes (parseAIResponse exampleCompletion)
  /\ fixes analysis = fixes (parseAIResponse exampleCompletion)
  /\ references analysis = references (parseAIResponse exampleCompletion).
Proof. repeat split; vm_compute; reflexivity. Qed.

(** C4. For a non-empty text none of whose lines is a header for the
    keyword set, [extractSection] returns the first 200 characters of the
    text followed by "...". *)
Theorem extractSection_fallback (text : string) (keywords : list string) :
  text <> "" ->
  Forall (fun line => isKeywordLine keywords line = false)
         (split_lines text) ->
  extractSection text keywords = substring 0 200 text ++ "...".
Proof.
  intros _ Hlines. unfold extractSection, capturedLines.
  rewrite scanLines_never_capturing by exact Hlines.
  reflexivity.
Qed.

Lemma extractSection_fallback_witness :
  extractSection "TypeError: x is undefined
at main.js" causesKeywords
  = "TypeError: x is undefined
at main.js...".
Proof.
  apply (extractSection_fallback "TypeError: x is undefined
at main.js" causesKeywords).
  - discriminate.
  - repeat constructor.
Defined.

(** C5, as stated, fails: under "Causes:" a numbered list closed by two
    blank lines is not returned.  Its first line is a numbered section
    that names no keyword, the capture ends there with nothing collected,
    and the fallback text is returned. *)
Lemma causes_block_counterexample :
  let text := "Causes:
1. Missing import
2. Wrong path

" in
  let block := ["1. Missing import"; "2. Wrong path"] in
  split_lines text = ([] ++ "Causes:" :: block ++ "" :: "" :: [])%list
  /\ Forall (fun line => trim line <> "") block
  /\ extractSection text causesKeywords = text ++ "..."
  /\ extractSection text causesKeywords <> join_lines (map trim block).
Proof.
  cbv zeta. split; [reflexivity|]. split; [|split].
  - repeat constructor; discriminate.
  - vm_compute. reflexivity.
  - vm_compute. discriminate.
Qed.

(** Two more ways the property fails as stated: an earlier header for the
    same keywords starts the capture before "Causes:", and a "Causes:"
    line followed at once by the two blank lines leaves nothing to join. *)
Lemma causes_block_after_earlier_header :
  extractSection "Likely causes: see below
Details
Causes:
- Missing import

" causesKeywords
  = "Details
- Missing import".
Proof. reflexivity. Qed.

Lemma causes_block_empty :
  extractSection "Causes:

" causesKeywords
  = "Causes:

...".
Proof. reflexivity. Qed.

(** C5, amended.  When the line "Causes:" is the first header of the text
    for the causes keywords and is followed by at least one non-blank
    line, none of which is itself a header for these keywords or meets a
    stop condition (a header-like line about documentation, references or
    links; a numbered section naming no keyword), and then by two blank
    lines, [extractSection] returns exactly those lines, each trimmed,
    joined by newlines. *)
Theorem extractSection_causes_block
    (text : string) (pre block : list string) (b1 b2 : string)
    (post : list string) :
  split_lines text = (pre ++ "Causes:" :: block ++ b1 :: b2 :: post)%list ->
  Forall (fun line => isKeywordLine causesKeywords line = false) pre ->
  block <> [] ->
  Forall (fun line =>
            trim line <> ""
            /\ isKeywordLine causesKeywords line = false
            /\ hitsReferences line = false
            /\ hitsOtherSection causesKeywords line = false) block ->
  trim b1 = "" -> trim b2 = "" ->
  extractSection text causesKeywords = join_lines (map trim block).
Proof.
  intros Hsplit Hpre Hne Hblock Hb1 Hb2.
  unfold extractSection, capturedLines. rewrite Hsplit.
  rewrite scanLines_from_first_header by (exact Hpre || reflexivity).
  rewrite scanLines_block by assumption.
  cbn [app].
  destruct block as [|line block]; [congruence|].
  inversion Hblock as [|? ? (Ht & _) _]; subst.
  cbn [map]. rewrite join_lines_truthy; [reflexivity|].
  apply truthy_true_iff, Ht.
Qed.

Lemma extractSection_causes_block_witness :
  extractSection "The call failed.
Causes:
- Missing initialization
   - Async timing issue


3. Fixes:" causesKeywords
  = "- Missing initialization
- Async timing issue".
Proof.
  apply (extractSection_causes_block _
           ["The call failed."]
           ["- Missing initialization"; "   - Async timing issue"]
           "" "" ["3. Fixes:"]).
  - reflexivity.
  - repeat constructor.
  - discriminate.
  - repeat constructor; discriminate.
  - reflexivity.
  - reflexivity.
Defined.

(** C9, as stated, fails: a later line that is header-like for the same
    keywords is not emitted.  Under "Fixes:", the bullet
    "- Quick fix: add a null check" holds the keyword "fix" and a colon;
    the loop skips it, where the specification's wording has it
    captured. *)
Lemma later_header_counterexample :
  let text := "Fixes:
- Quick fix: add a null check
- Upgrade the library" in
  isKeywordLine fixesKeywords "- Quick fix: add a null check" = true
  /\ capturedLinesFirstHeaderOnly text fixesKeywords
     = ["- Quick fix: add a null check"; "- Upgrade the library"]
  /\ capturedLines text fixesKeywords = ["- Upgrade the library"]
  /\ extractSection text fixesKeywords = "- Upgrade the library".
Proof. cbv zeta. repeat split; vm_compute; reflexivity. Qed.

(** C9, amended.  When no line of the text is a header for the keyword
    set nothing is captured.  Otherwise the capture begins at the line
    after the first header.  From there every non-blank line that is not
    itself a header for the keyword set is emitted, trimmed and in
    order; a later header line is skipped, not emitted, and the capture
    goes on after it.  The capture ends in one of three ways: at the end
    of the text; at a line that meets one of the two stop conditions,
    which is not emitted; or right after an emitted line that is
    followed by two blank lines.  Nothing after that point is emitted.
    Every text with a header line splits in this way. *)
Theorem capture_after_first_header
    (text : string) (keywords : list string) :
  (Forall (fun line => isKeywordLine keywords line = false)
          (split_lines text) ->
   capturedLines text keywords = [])
  /\ (forall pre header segment after final,
        split_lines text = (pre ++ header :: segment ++ after)%list ->
        Forall (fun line => isKeywordLine keywords line = false) pre ->
        isKeywordLine keywords header = true ->
        runsThrough keywords segment after = true ->
        CaptureEnd keywords after final ->
        capturedLines text keywords
        = (map trim (filter (emitted keywords) segment)
             ++ map trim final)%list)
  /\ (Exists (fun line => isKeywordLine keywords line = true)
             (split_lines text) ->
      exists pre header segment after final,
        split_lines text = (pre ++ header :: segment ++ after)%list
        /\ Forall (fun line => isKeywordLine keywords line = false) pre
        /\ isKeywordLine keywords header = true
        /\ runsThrough keywords segment after = true
        /\ CaptureEnd keywords after final).
Proof.
  split; [|split].
  - intros Hnone. unfold capturedLines.
    apply scanLines_never_capturing, Hnone.
  - intros pre header segment after final Hsplit Hpre Hh Hrun Hafter.
    unfold capturedLines. rewrite Hsplit.
    rewrite scanLines_from_first_header by assumption.
    rewrite (scanLines_capture keywords segment after final [] Hrun Hafter).
    reflexivity.
  - intros Hexists.
    destruct (first_header keywords (split_lines text) Hexists)
      as (pre & header & rest & Hsplit & Hpre & Hh).
    destruct (capture_ends keywords rest)
      as (segment & after & final & -> & Hrun & Hafter).
    exists pre, header, segment, after, final.
    repeat split; assumption.
Qed.

Lemma capture_after_first_header_witness :
  capturedLines "Here is the analysis.
3. Fixes:
- Quick fix: add a null check

  - Upgrade the library
4. Documentation
- https://example.com/docs" fixesKeywords
  = ["- Upgrade the library"]
  /\ capturedLines "Fixes:
- a


- b
4. Documentation" fixesKeywords
     = ["- a"].
Proof.
  split.
  - apply (proj1 (proj2 (capture_after_first_header _ fixesKeywords))
             ["Here is the analysis."] "3. Fixes:"
             ["- Quick fix: add a null check"; "";
              "  - Upgrade the library"]
             ["4. Documentation"; "- https://example.com/docs"] []).
    + reflexivity.
    + repeat constructor.
    + reflexivity.
    + reflexivity.
    + constructor. reflexivity.
  - apply (proj1 (proj2 (capture_after_first_header _ fixesKeywords))
             [] "Fixes:" [] ["- a"; ""; ""; "- b"; "4. Documentation"]
             ["- a"]).
    + reflexivity.
    + constructor.
    + reflexivity.
    + reflexivity.
    + constructor; reflexivity.
Defined.

(** ** The reference extractor *)

Section ReferenceExtractor.

Lemma append_empty_right (s : string) : s ++ "" = s.
Proof. induction s; simpl; congruence. Qed.

Lemma append_char_assoc (u : string) (c : ascii) (h : string) :
  (u ++ String c "") ++ h = u ++ String c h.
Proof. induction u; simpl; congruence. Qed.

Lemma pieces_head (s : string) :
  exists t, pieces s = takeWhile notWhiteSpace s :: t.
Proof.
  induction s as [|c r (t & IH)]; simpl.
  - exists []. reflexivity.
  - unfold notWhiteSpace at 1. destruct (isWhiteSpace c); simpl.
    + eexists. reflexivity.
    + rewrite IH. eexists. reflexivity.
Qed.

(** A scheme without white space starts a match at [s] exactly when the
    piece at the head of [s] starts with it and is longer. *)
Lemma schemeStartsHere_piece (scheme s : string) :
  solid scheme = true ->
  schemeStartsHere scheme s
  = startsWith scheme (takeWhile notWhiteSpace s)
    && (String.length scheme
        <? String.length (takeWhile notWhiteSpace s))%nat.
Proof.
  unfold schemeStartsHere. revert s.
  induction scheme as [|a p IH]; intros s Hsolid.
  - destruct s as [|c r]; simpl; [reflexivity|].
    destruct (notWhiteSpace c); reflexivity.
  - simpl in Hsolid. apply andb_true_iff in Hsolid as [Ha Hp].
    destruct s as [|b r]; [reflexivity|].
    cbn [afterPrefix takeWhile].
    destruct (Ascii.eqb a b) eqn:Hab.
    + apply Ascii.eqb_eq in Hab. subst b. rewrite Ha.
      cbn [startsWith String.length]. rewrite Ascii.eqb_refl.
      rewrite (IH r Hp). reflexivity.
    + destruct (notWhiteSpace b); cbn [startsWith]; [|reflexivity].
      rewrite Hab. reflexivity.
Qed.

Lemma urlStartsHere_piece (s : string) :
  urlStartsHere s = startsUrl (takeWhile notWhiteSpace s).
Proof.
  unfold urlStartsHere, startsUrl.
  rewrite !schemeStartsHere_piece by reflexivity.
  apply orb_comm.
Qed.

Lemma takeWhile_solid_head (c : ascii) (r : string) :
  isWhiteSpace c = false ->
  takeWhile notWhiteSpace (String c r)
  = String c (takeWhile notWhiteSpace r).
Proof. intros H. simpl. unfold notWhiteSpace at 1. rewrite H. reflexivity. Qed.

Lemma takeWhile_space_head (c : ascii) (r : string) :
  isWhiteSpace c = true ->
  takeWhile notWhiteSpace (String c r) = "".
Proof. intros H. simpl. unfold notWhiteSpace at 1. rewrite H. reflexivity. Qed.

(** The scan of [matchUrls] against the pieces of the text: inside a
    match, the match takes the rest of the current piece; outside, the
    scan finds in every piece the suffix from its first URL start. *)
Lemma matchUrls_pieces (s : string) :
  (forall u, exists h t,
      pieces s = h :: t
      /\ matchUrls (Some u) s
         = (u ++ h) :: flat_map (suffixFrom startsUrl) t)
  /\ matchUrls None s = flat_map (suffixFrom startsUrl) (pieces s).
Proof.
  induction s as [|c r [IHin IHout]].
  - split; [|reflexivity].
    intros u. exists "", []. rewrite append_empty_right. split; reflexivity.
  - destruct (isWhiteSpace c) eqn:Hc.
    + split.
      * intros u. exists "", (pieces r). simpl. rewrite Hc.
        rewrite append_empty_right, IHout. split; reflexivity.
      * cbn [matchUrls pieces]. rewrite Hc.
        rewrite urlStartsHere_piece, takeWhile_space_head by exact Hc.
        cbn [startsUrl]. exact IHout.
    + split.
      * intros u.
        destruct (IHin (u ++ String c "")) as (h & t & Hp & Hm).
        exists (String c h), t. simpl. rewrite Hc, Hp, Hm.
        rewrite append_char_assoc. split; reflexivity.
      * destruct (pieces_head r) as (t & Hp).
        cbn [matchUrls pieces]. rewrite Hc, Hp.
        rewrite urlStartsHere_piece, takeWhile_solid_head by exact Hc.
        cbn [flat_map suffixFrom].
        destruct (startsUrl (String c (takeWhile notWhiteSpace r))).
        -- destruct (IHin (String c "")) as (h & t' & Hp' & Hm).
           rewrite Hp in Hp'. injection Hp' as <- <-.
           rewrite Hm. reflexivity.
        -- rewrite IHout, Hp. reflexivity.
Qed.

(** [stripTrailingPunct] removes a run of the listed characters from the
    end, and what it leaves does not end with one of them. *)
Lemma stripTrailingPunct_spec (url : string) :
  exists run,
    url = stripTrailingPunct url ++ run
    /\ allPunct run = true
    /\ endsWithPunct (stripTrailingPunct url) = false.
Proof.
  induction url as [|c r (run & Hr & Hrun & Hend)].
  - exists "". repeat split.
  - simpl. destruct (stripTrailingPunct r) as [|d r'] eqn:Hs.
    + destruct (isTrailingPunct c) eqn:Hc.
      * exists (String c r). simpl in Hr. subst run.
        simpl. rewrite Hc, Hrun. repeat split.
      * exists r. simpl in Hr. subst run. simpl. rewrite Hc.
        repeat split. exact Hrun.
    + exists run. split; [|split].
      * rewrite Hr at 1. reflexivity.
      * exact Hrun.
      * exact Hend.
Qed.

End ReferenceExtractor.

(** C6, as stated, fails on a scheme with nothing after it: in
    "see http:// now" the substring "http://" starts with http:// and runs
    to the next white space, and [extractReferences] does not return it. *)
Lemma bare_scheme_counterexample :
  urlSubstrings startsWithScheme "see http:// now" = ["http://"]
  /\ extractReferences "see http:// now" = []
  /\ extractReferences "see http:// now"
     <> map stripTrailingPunct
            (urlSubstrings startsWithScheme "see http:// now").
Proof.
  split; [reflexivity|]. split; [reflexivity|]. vm_compute. discriminate.
Qed.

(** C6, amended.  [extractReferences] returns, in the order of the text
    and with duplicates kept, every maximal substring that starts with
    http:// or https:// followed by at least one character that is not
    white space, and runs to the next white space, with the whole run of
    the characters ) ] > , . at its end removed.  On
    "see https://a.io/x.)." followed by a newline it returns
    ["https://a.io/x"]. *)
Theorem extractReferences_spec :
  (forall text,
      extractReferences text
      = map stripTrailingPunct (urlSubstrings startsUrl text))
  /\ (forall url, exists run,
         url = stripTrailingPunct url ++ run
         /\ allPunct run = true
         /\ endsWithPunct (stripTrailingPunct url) = false)
  /\ extractReferences "see https://a.io/x.).
" = ["https://a.io/x"].
Proof.
  split; [|split].
  - intros text. unfold extractReferences, urlSubstrings.
    destruct (matchUrls_pieces text) as [_ ->]. reflexivity.
  - apply stripTrailingPunct_spec.
  - reflexivity.
Qed.

(** ** The retry loop *)

Import Exn Init FixError.

Section RetryLoop.

Variable provider : Provider.
Variable args : CallArgs.
Variable maxRetries : Z.

(** One turn of the loop. *)
Lemma retryLoop_step (attempt : Z) (lastError : option JsError) (w : World) :
  retryLoop provider args maxRetries attempt lastError w
  = if (attempt <=? maxRetries)%Z then
      match provider args (callCount w) with
      | Normal response =>
          ((Some response, lastError), (w ++ [CallOpenAI args])%list)
      | Thrown err =>
          retryLoop provider args maxRetries (attempt + 1) (Some err)
            (if (attempt <? maxRetries)%Z
             then (w ++ [CallOpenAI args; Sleep (backoffDelay attempt)])%list
             else (w ++ [CallOpenAI args])%list)
      end
    else ((None, lastError), w).
Proof.
  simp retryLoop.
  destruct (Z_le_gt_dec attempt maxRetries) as [Hle | Hgt]; simpl.
  - destruct (Z.leb_spec attempt maxRetries); [|lia].
    unfold callOpenAI.
    destruct (provider args (callCount w)); simpl; [reflexivity|].
    destruct (attempt <? maxRetries)%Z; simpl.
    + unfold sleep, emit. simpl. rewrite <- app_assoc. reflexivity.
    + reflexivity.
  - destruct (Z.leb_spec attempt maxRetries); [lia|]. reflexivity.
Qed.

Lemma callCount_app (w w' : World) :
  callCount (w ++ w')%list = (callCount w + callCount w')%nat.
Proof. unfold callCount. rewrite filter_app, length_app. reflexivity. Qed.

Lemma sleeps_app (w w' : World) :
  sleeps (w ++ w')%list = (sleeps w ++ sleeps w')%list.
Proof.
  induction w as [|e w IH]; simpl; [reflexivity|].
  destruct (sleepOf e); simpl; congruence.
Qed.

Lemma callCount_failedAttempts (first : Z) (count : nat) :
  callCount (failedAttempts args first count) = count.
Proof.
  revert first. induction count as [|count IH]; intros first;
    [reflexivity|].
  unfold failedAttempts in *. simpl. unfold callCount in *. simpl.
  rewrite IH. reflexivity.
Qed.

Lemma sleeps_failedAttempts (first : Z) (count : nat) :
  sleeps (failedAttempts args first count)
  = map backoffDelay (attemptsFrom first count).
Proof.
  revert first. induction count as [|count IH]; intros first;
    [reflexivity|].
  unfold failedAttempts in *. simpl. rewrite IH. reflexivity.
Qed.

(** The backoffs double: together, those after the attempts [first] to
    [first + count - 1] last [1000 * 2^first * (2^count - 1)]
    milliseconds. *)
Lemma total_backoff (first : Z) (count : nat) :
  (0 <= first)%Z ->
  total (map backoffDelay (attemptsFrom first count))
  = (1000 * 2 ^ first * (2 ^ Z.of_nat count - 1))%Z.
Proof.
  revert first. induction count as [|count IH]; intros first Hfirst.
  - simpl. lia.
  - cbn [attemptsFrom map total fold_right].
    change (fold_right Z.add 0%Z ?l) with (total l).
    rewrite IH by lia. unfold backoffDelay.
    rewrite Nat2Z.inj_succ, !Z.pow_succ_r, Z.pow_add_r by lia.
    lia.
Qed.

(** As long as the attempts fail and [maxRetries] is not reached, the
    loop calls, waits for the backoff and tries again. *)
Lemma retryLoop_failures (count : nat) :
  forall (attempt : Z) (lastError : option JsError) (w : World),
    (attempt + Z.of_nat count <= maxRetries)%Z ->
    (forall i, (i < count)%nat ->
               exists e, provider args (callCount w + i) = Thrown e) ->
    exists lastError',
      retryLoop provider args maxRetries attempt lastError w
      = retryLoop provider args maxRetries
          (attempt + Z.of_nat count) lastError'
          (w ++ failedAttempts args attempt count)%list.
Proof.
  induction count as [|count IH]; intros attempt lastError w Hle Hfail.
  - exists lastError. unfold failedAttempts. simpl.
    rewrite Z.add_0_r, app_nil_r. reflexivity.
  - destruct (Hfail 0%nat) as (e & He); [lia|].
    rewrite Nat.add_0_r in He.
    rewrite retryLoop_step, He.
    destruct (Z.leb_spec attempt maxRetries); [|lia].
    destruct (Z.ltb_spec attempt maxRetries); [|lia].
    destruct (IH (attempt + 1)%Z (Some e)
                 (w ++ [CallOpenAI args; Sleep (backoffDelay attempt)])%list)
      as (lastError' & Hloop).
    + lia.
    + intros i Hi. destruct (Hfail (S i)) as (e' & He'); [lia|].
      exists e'. rewrite callCount_app.
      change (callCount [CallOpenAI args; Sleep (backoffDelay attempt)])
        with 1%nat.
      rewrite <- He'. f_equal. lia.
    + exists lastError'. rewrite Hloop.
      replace (attempt + 1 + Z.of_nat count)%Z
        with (attempt + Z.of_nat (S count))%Z by lia.
      unfold failedAttempts. cbn [attemptsFrom flat_map].
      rewrite <- app_assoc. reflexivity.
Qed.

(** Every attempt fails: the loop makes [maxRetries + 1] of them and
    leaves with the cause of the last one. *)
Lemma retryLoop_exhausted (w : World) :
  (0 <= maxRetries)%Z ->
  (forall n, exists e, provider args n = Thrown e) ->
  exists lastCause,
    provider args (callCount w + Z.to_nat maxRetries) = Thrown lastCause
    /\ retryLoop provider args maxRetries 0 None w
       = ((None, Some lastCause),
          (w ++ failedAttempts args 0 (Z.to_nat maxRetries)
             ++ [CallOpenAI args])%list).
Proof.
  intros Hm Hfail.
  destruct (retryLoop_failures (Z.to_nat maxRetries) 0 None w)
    as (lastError' & Hloop); [lia | intros i _; apply Hfail |].
  destruct (Hfail (callCount w + Z.to_nat maxRetries)%nat) as (e & He).
  exists e. split; [exact He|].
  rewrite Hloop, retryLoop_step.
  rewrite callCount_app, callCount_failedAttempts, He.
  replace (0 + Z.of_nat (Z.to_nat maxRetries))%Z with maxRetries by lia.
  rewrite Z.leb_refl, Z.ltb_irrefl.
  rewrite retryLoop_step.
  destruct (Z.leb_spec (maxRetries + 1) maxRetries); [lia|].
  rewrite <- app_assoc. reflexivity.
Qed.

(** [failures] attempts fail, with [failures <= maxRetries], and the next
    one succeeds: the loop leaves with its response. *)
Lemma retryLoop_succeeds (failures : nat) (response : Response) (w : World) :
  (Z.of_nat failures <= maxRetries)%Z ->
  (forall i, (i < failures)%nat ->
             exists e, provider args (callCount w + i) = Thrown e) ->
  provider args (callCount w + failures) = Normal response ->
  exists lastError,
    retryLoop provider args maxRetries 0 None w
    = ((Some response, lastError),
       (w ++ failedAttempts args 0 failures ++ [CallOpenAI args])%list).
Proof.
  intros Hle Hfail Hok.
  destruct (retryLoop_failures failures 0 None w)
    as (lastError' & Hloop); [lia | exact Hfail |].
  exists lastError'.
  rewrite Hloop, retryLoop_step.
  rewrite callCount_app, callCount_failedAttempts, Hok.
  destruct (Z.leb_spec (0 + Z.of_nat failures) maxRetries); [|lia].
  rewrite <- app_assoc. reflexivity.
Qed.

End RetryLoop.

(** C2. With a provider that fails on every invocation, the retry loop
    makes exactly [maxRetries + 1] attempts for every non-negative
    [maxRetries], and the failure that leaves the loop is the cause of
    the last attempt; with [maxRetries = 1] there are exactly 2
    invocations and the cause is the second one's; [maxRetries = 0] means
    one attempt and no wait, whatever the provider does. *)
Theorem retry_all_attempts_fail
    (provider : Provider) (args : CallArgs) (w : World) :
  (forall n, exists e, provider args n = Thrown e) ->
  (forall maxRetries, (0 <= maxRetries)%Z ->
     exists lastCause,
       provider args (callCount w + Z.to_nat maxRetries) = Thrown lastCause
       /\ callWithRetry provider args maxRetries w
          = (Thrown lastCause,
             (w ++ failedAttempts args 0 (Z.to_nat maxRetries)
                ++ [CallOpenAI args])%list)
       /\ callCount (snd (callWithRetry provider args maxRetries w))
          = (callCount w + (Z.to_nat maxRetries + 1))%nat)
  /\ (exists secondCause,
        provider args (callCount w + 1) = Thrown secondCause
        /\ fst (callWithRetry provider args 1 w) = Thrown secondCause
        /\ callCount (snd (callWithRetry provider args 1 w))
           = (callCount w + 2)%nat)
  /\ (forall anyProvider : Provider,
        callWithRetry anyProvider args 0 w
        = (anyProvider args (callCount w), (w ++ [CallOpenAI args])%list)).
Proof.
  intros Hfail.
  assert (Hgeneral :
    forall maxRetries, (0 <= maxRetries)%Z ->
     exists lastCause,
       provider args (callCount w + Z.to_nat maxRetries) = Thrown lastCause
       /\ callWithRetry provider args maxRetries w
          = (Thrown lastCause,
             (w ++ failedAttempts args 0 (Z.to_nat maxRetries)
                ++ [CallOpenAI args])%list)
       /\ callCount (snd (callWithRetry provider args maxRetries w))
          = (callCount w + (Z.to_nat maxRetries + 1))%nat).
  { intros maxRetries Hm.
    destruct (retryLoop_exhausted provider args maxRetries w Hm Hfail)
      as (e & He & Hloop).
    exists e. split; [exact He|].
    unfold callWithRetry. rewrite Hloop. split; [reflexivity|].
    cbn [snd]. rewrite !callCount_app, callCount_failedAttempts.
    reflexivity. }
  split; [exact Hgeneral|]. split.
  - destruct (Hgeneral 1%Z) as (e & He & Hcall & Hcount); [lia|].
    exists e. rewrite Hcall in *. repeat split; assumption.
  - intros anyProvider. unfold callWithRetry.
    rewrite retryLoop_step. cbn [Z.leb Z.compare Z.ltb].
    destruct (anyProvider args (callCount w)); [reflexivity|].
    rewrite retryLoop_step. reflexivity.
Qed.

Lemma retry_all_attempts_fail_witness :
  callWithRetry Stubs.alwaysFails Stubs.sampleArgs 1 []
  = (Thrown (newError "request failed, invocation 1"),
     [CallOpenAI Stubs.sampleArgs; Sleep 1000; CallOpenAI Stubs.sampleArgs]).
Proof.
  destruct (retry_all_attempts_fail Stubs.alwaysFails Stubs.sampleArgs [])
    as [Hgeneral _].
  - intros n. eexists. reflexivity.
  - destruct (Hgeneral 1%Z) as (e & He & Hcall & _); [lia|].
    rewrite Hcall. injection He as <-. reflexivity.
Defined.

(** C7. After the failed attempt numbered [k], with [k < maxRetries], the
    loop asks for a wait of [1000 * 2^k] milliseconds before the next
    attempt.  When the first [failures <= maxRetries] attempts fail and
    the next one succeeds, the loop returns the success value, the waits
    it asked for are those of the attempts [0] to [failures - 1], and
    they add up to [1000 * (2^failures - 1)] milliseconds: 3000 after two
    failures. *)
Theorem retry_backoff_then_success
    (provider : Provider) (args : CallArgs) (maxRetries : Z)
    (failures : nat) (response : Response) (w : World) :
  (Z.of_nat failures <= maxRetries)%Z ->
  (forall i, (i < failures)%nat ->
             exists e, provider args (callCount w + i) = Thrown e) ->
  provider args (callCount w + failures) = Normal response ->
  callWithRetry provider args maxRetries w
  = (Normal response,
     (w ++ flat_map (fun k => [CallOpenAI args; Sleep (1000 * 2 ^ k)])
                    (attemptsFrom 0 failures)
        ++ [CallOpenAI args])%list)
  /\ sleeps (snd (callWithRetry provider args maxRetries w))
     = (sleeps w ++ map (fun k => 1000 * 2 ^ k)%Z
                        (attemptsFrom 0 failures))%list
  /\ total (map (fun k => 1000 * 2 ^ k)%Z (attemptsFrom 0 failures))
     = (1000 * (2 ^ Z.of_nat failures - 1))%Z.
Proof.
  intros Hle Hfail Hok.
  destruct (retryLoop_succeeds provider args maxRetries failures response w
              Hle Hfail Hok) as (lastError & Hloop).
  assert (Hcall :
    callWithRetry provider args maxRetries w
    = (Normal response,
       (w ++ failedAttempts args 0 failures ++ [CallOpenAI args])%list)).
  { unfold callWithRetry. rewrite Hloop. reflexivity. }
  split; [exact Hcall|]. split.
  - rewrite Hcall. cbn [snd].
    rewrite !sleeps_app, sleeps_failedAttempts. simpl.
    rewrite app_nil_r. reflexivity.
  - change (fun k => 1000 * 2 ^ k)%Z with backoffDelay.
    rewrite total_backoff by lia. rewrite Z.pow_0_r. lia.
Qed.

Lemma retry_backoff_then_success_witness :
  callWithRetry (Stubs.failsThenSucceeds 2) Stubs.sampleArgs 2 []
  = (Normal Stubs.sampleResponse,
     [CallOpenAI Stubs.sampleArgs; Sleep 1000;
      CallOpenAI Stubs.sampleArgs; Sleep 2000;
      CallOpenAI Stubs.sampleArgs])
  /\ sleeps (snd (callWithRetry (Stubs.failsThenSucceeds 2)
                    Stubs.sampleArgs 2 []))
     = [1000; 2000]%Z
  /\ total [1000; 2000]%Z = 3000%Z.
Proof.
  apply (retry_backoff_then_success (Stubs.failsThenSucceeds 2)
           Stubs.sampleArgs 2 2 Stubs.sampleResponse []).
  - lia.
  - intros i Hi. destruct i as [|[|i]]; [eexists; reflexivity ..|lia].
  - reflexivity.
Defined.

(** ** The orchestration *)

(** [fixError], statement by statement, for a value [normalizeError]
    makes an error of. *)
Lemma fixError_renderable
    (provider : Provider) (config : Config) (error : ErrorInput)
    (errorObj : JsError) (options : OptionsArg) (w : World) :
  normalizeError error = Normal errorObj ->
  fixError provider config error options w
  = if initialized config then
      match callWithRetry provider (requestArgs config errorObj)
                          (maxRetries config) w with
      | (Normal response, w1) =>
          match options with
          | OptionsObject true =>
              (Normal (Vocabulary.analysisRecord errorObj response), w1)
          | OptionsNull => (Thrown Vocabulary.nullOptionsError, w1)
          | _ =>
              (Normal ReturnNull,
               (w1 ++ [Vocabulary.reportOf errorObj response])%list)
          end
      | (Thrown cause, w1) =>
          Vocabulary.catchOutcome errorObj options cause w1
      end
    else Vocabulary.catchOutcome errorObj options
           (newError notInitializedMessage) w.
Proof.
  intros Herror.
  unfold fixError, tryCatch, bind, lift, getConfig. rewrite Herror.
  destruct (initialized config); cbn [negb].
  - fold (requestArgs config errorObj).
    destruct (callWithRetry provider (requestArgs config errorObj)
                (maxRetries config) w) as [[response | cause] w1].
    + unfold Vocabulary.analysisRecord, Vocabulary.reportOf.
      destruct (parseContent (content response)) as [analysis | parseError];
        destruct options as [| |[|]]; reflexivity.
    + destruct options as [| |[|]]; reflexivity.
  - destruct options as [| |[|]]; reflexivity.
Qed.

(** For a value whose conversion to a string throws, [normalizeError]
    throws in the [try] block at the latest and again in the [catch]
    block: [fixError] raises what the conversion threw, and neither the
    provider nor the console is reached. *)
Lemma fixError_unrenderable
    (provider : Provider) (config : Config) (error : ErrorInput)
    (thrown : JsError) (options : OptionsArg) (w : World) :
  normalizeError error = Thrown thrown ->
  fixError provider config error options w = (Thrown thrown, w).
Proof.
  intros Herror.
  unfold fixError, tryCatch, bind, lift. rewrite Herror.
  destruct (getConfig config); reflexivity.
Qed.

(** [fixError] raises in exactly two cases: the second argument is
    [null], or [normalizeError] throws on the first. *)
Lemma fixError_raises_exactly
    (provider : Provider) (config : Config) (error : ErrorInput)
    (options : OptionsArg) (w : World) :
  Vocabulary.raises (fixError provider config error options w)
  <-> options = OptionsNull
      \/ exists thrown, normalizeError error = Thrown thrown.
Proof.
  unfold Vocabulary.raises.
  destruct (normalizeError error) as [errorObj | thrown] eqn:Herror.
  - rewrite (fixError_renderable provider config error errorObj options w
               Herror).
    split.
    + intros (e & He).
      destruct options as [| |[|]]; [exfalso | now left | exfalso ..];
        unfold Vocabulary.catchOutcome in He;
        destruct (initialized config);
        try destruct (callWithRetry provider (requestArgs config errorObj)
                        (maxRetries config) w) as [[response | cause] w1];
        discriminate He.
    + intros [-> | (e & He)]; [|discriminate He].
      exists Vocabulary.nullOptionsError.
      unfold Vocabulary.catchOutcome.
      destruct (initialized config); [|reflexivity].
      destruct (callWithRetry provider (requestArgs config errorObj)
                  (maxRetries config) w) as [[response | cause] w1];
        reflexivity.
  - rewrite (fixError_unrenderable provider config error thrown options w
               Herror).
    split.
    + intros _. right. exists thrown. reflexivity.
    + intros _. exists thrown. reflexivity.
Qed.

(** The loop at work inside [fixError]: with an initialised configuration
    and a provider that always fails, the silent call makes
    [maxRetries + 1] attempts and reports the message of the last
    cause. *)
Lemma fixError_reports_last_cause
    (provider : Provider) (config : Config) (error : ErrorInput)
    (errorObj : JsError) (w : World) :
  normalizeError error = Normal errorObj ->
  initialized config = true ->
  (0 <= maxRetries config)%Z ->
  (forall n, exists e,
      provider (requestArgs config errorObj) n = Thrown e) ->
  exists lastCause,
    provider (requestArgs config errorObj)
             (callCount w + Z.to_nat (maxRetries config)) = Thrown lastCause
    /\ fixError provider config error (OptionsObject true) w
       = (Normal (failureRecord errorObj (message lastCause)),
          (w ++ failedAttempts (requestArgs config errorObj) 0
                  (Z.to_nat (maxRetries config))
             ++ [CallOpenAI (requestArgs config errorObj)])%list).
Proof.
  intros Herror Hinit Hm Hfail.
  destruct (retryLoop_exhausted provider (requestArgs config errorObj)
              (maxRetries config) w Hm Hfail) as (e & He & Hloop).
  exists e. split; [exact He|].
  rewrite (fixError_renderable provider config error errorObj
             (OptionsObject true) w Herror), Hinit.
  unfold callWithRetry. rewrite Hloop. reflexivity.
Qed.

(** C3, as stated, fails in two ways.  For the options value [null],
    reading [options.silent] throws in the [try] block and again in the
    [catch] block, and that second [TypeError] leaves [fixError].  For a
    first argument that [String] cannot convert, such as
    [Object.create(null)], [normalizeError] throws in the [try] block
    and again, unguarded, in the [catch] block, and that [TypeError]
    leaves [fixError], also with [{silent: true}]. *)
Lemma fixError_raises_counterexample :
  fixError Stubs.alwaysFails initialConfig (StringValue "boom")
           OptionsNull []
  = (Thrown
       (typeError "Cannot read properties of null (reading 'silent')"),
     [])
  /\ fixError Stubs.alwaysFails initialConfig Stubs.bareObject
              (OptionsObject true) []
     = (Thrown (typeError "Cannot convert object to primitive value"), [])
  /\ fixError (Stubs.failsThenSucceeds 0) Stubs.readyConfig
              Stubs.bareObject (OptionsObject true) []
     = (Thrown (typeError "Cannot convert object to primitive value"), []).
Proof. repeat split. Qed.

(** C3, amended.  For every first argument [normalizeError] makes an
    error of (a native Error, a string, a record with a non-empty
    message, or any other value that [String] converts), every provider
    and configuration, and every options argument that is left out or is
    not [null], [fixError] does not raise: a failure at any stage is
    caught.  With [silent = true] and a configuration that is not
    initialized it returns the record
    [{error: {...}, analysis: null, analysisError: m}] where [m] is the
    "Package not initialized" message, and does nothing else.  The two
    conditions are needed: by [fixError_raises_exactly], [fixError]
    raises whenever one of them fails. *)
Theorem fixError_never_raises
    (provider : Provider) (config : Config) (error : ErrorInput)
    (errorObj : JsError) (options : OptionsArg) (w : World) :
  options <> OptionsNull ->
  normalizeError error = Normal errorObj ->
  (exists value w',
      fixError provider config error options w = (Normal value, w'))
  /\ (initialized config = false ->
      fixError provider config error (OptionsObject true) w
      = (Normal
           (ReturnFailure
              {| error_name := name errorObj;
                 error_message := message errorObj;
                 error_stack := stack errorObj |}
              "ai-error-solution: Package not initialized. Please call initAutoErrorSolution() first with your API key."),
         w)).
Proof.
  intros Hnull Herror. split.
  - destruct (fixError provider config error options w)
      as [[value | thrown] w'] eqn:Hrun.
    + exists value, w'. reflexivity.
    + exfalso.
      destruct (proj1 (fixError_raises_exactly provider config error
                         options w)) as [Hoptions | (e & He)].
      * exists thrown. rewrite Hrun. reflexivity.
      * exact (Hnull Hoptions).
      * congruence.
  - intros Huninit.
    rewrite (fixError_renderable provider config error errorObj
               (OptionsObject true) w Herror), Huninit.
    reflexivity.
Qed.

Lemma fixError_never_raises_witness :
  fixError Stubs.alwaysFails initialConfig (StringValue "boom")
           (OptionsObject true) []
  = (Normal
       (ReturnFailure
          {| error_name := "Error"; error_message := "boom";
             error_stack := EngineStack "boom" |}
          "ai-error-solution: Package not initialized. Please call initAutoErrorSolution() first with your API key."),
     []).
Proof.
  apply (fixError_never_raises Stubs.alwaysFails initialConfig
           (StringValue "boom") (newError "boom") (OptionsObject true) []).
  - discriminate.
  - reflexivity.
  - reflexivity.
Defined.

(** On the success path the message of the returned error record is not
    empty: an empty message is replaced by "Unknown error". *)
Lemma success_path_message_nonempty
    (provider : Provider) (config : Config) (error : ErrorInput)
    (options : OptionsArg) (w w' : World)
    (record : ErrorRecord) (analysis : StructuredAnalysis)
    (model : string) (usage : option string) :
  fixError provider config error options w
  = (Normal (ReturnAnalysis record analysis model usage), w') ->
  error_message record <> ""
  /\ exists errorObj,
       normalizeError error = Normal errorObj
       /\ (message errorObj = "" ->
           error_message record = "Unknown error").
Proof.
  destruct (normalizeError error) as [errorObj | thrown] eqn:Herror.
  - rewrite (fixError_renderable provider config error errorObj options w
               Herror).
    unfold Vocabulary.catchOutcome, Vocabulary.analysisRecord,
      failureRecord.
    destruct (initialized config).
    + destruct (callWithRetry provider (requestArgs config errorObj)
                  (maxRetries config) w) as [[response | cause] w1].
      * destruct (parseContent (content response));
          destruct options as [| |[|]]; intros H; try discriminate H.
        injection H as <- _ _ _ _. cbn [error_message].
        split.
        -- destruct (message errorObj); simpl; congruence.
        -- exists errorObj. split; [reflexivity|].
           intros ->. reflexivity.
      * destruct options as [| |[|]]; intros H; discriminate H.
    + destruct options as [| |[|]]; intros H; discriminate H.
  - rewrite (fixError_unrenderable provider config error thrown options w
               Herror).
    intros H. discriminate H.
Qed.

Lemma readyConfig_initialised :
  initAutoErrorSolution
    (InitArgObject
       {| optApiKey := Some "sk-test"; optModel := None;
          optTimeout := None; optMaxRetries := Some 2%Z |})
    initialConfig
  = Normal Stubs.readyConfig.
Proof. reflexivity. Qed.

(** C8: evaluation at the failing input.  Before initialisation,
    [fixError(new Error(''), {silent: true})] returns an error record
    whose message is the empty string: the [catch] block copies
    [errorObj.message] without the "Unknown error" fallback.  On the same
    input the [try] block, when the provider answers, applies the
    fallback. *)
Theorem failure_path_empty_message :
  fixError Stubs.alwaysFails initialConfig (ErrorObject (newError ""))
           (OptionsObject true) []
  = (Normal
       (ReturnFailure
          {| error_name := "Error"; error_message := "";
             error_stack := EngineStack "" |}
          notInitializedMessage),
     [])
  /\ fixError (Stubs.failsThenSucceeds 0) Stubs.readyConfig
              (ErrorObject (newError "")) (OptionsObject true) []
     = (Normal
          (ReturnAnalysis
             {| error_name := "Error"; error_message := "Unknown error";
                error_stack := EngineStack "" |}
             (parseAIResponse exampleCompletion) "gpt-4o-mini" None),
        [CallOpenAI (requestArgs Stubs.readyConfig (newError ""))]).
Proof.
  split.
  - reflexivity.
  - vm_compute. reflexivity.
Qed.

(** * Further properties of the code *)

Import Vocabulary.

(** ** Splitting and trimming *)

Section Splitting.

Lemma split_lines_splitAt (s : string) : split_lines s = splitAt isLF s.
Proof.
  induction s as [|c r IH]; simpl; [reflexivity|].
  unfold isLF at 1. rewrite IH. reflexivity.
Qed.

Lemma pieces_splitAt (s : string) : pieces s = splitAt isWhiteSpace s.
Proof.
  induction s as [|c r IH]; simpl; [reflexivity|].
  rewrite IH. reflexivity.
Qed.

Variable sep : ascii -> bool.

Lemma splitAt_nonempty (s : string) : splitAt sep s <> [].
Proof.
  destruct s as [|c r]; simpl; [discriminate|].
  destruct (sep c); [discriminate|].
  destruct (splitAt sep r); discriminate.
Qed.

Lemma splitAt_without (s : string) :
  Forall (fun piece => without sep piece = true) (splitAt sep s).
Proof.
  induction s as [|c r IH]; simpl.
  - repeat constructor.
  - destruct (sep c) eqn:Hc.
    + constructor; [reflexivity | exact IH].
    + destruct (splitAt sep r) as [|h t].
      * repeat constructor. simpl. rewrite Hc. reflexivity.
      * inversion IH; subst.
        constructor; [simpl; rewrite Hc; assumption | assumption].
Qed.

Lemma splitAt_single (s : string) :
  without sep s = true -> splitAt sep s = [s].
Proof.
  induction s as [|c r IH]; simpl; [reflexivity|].
  intros H. apply andb_true_iff in H as [Hc Hr].
  apply negb_true_iff in Hc. rewrite Hc, (IH Hr). reflexivity.
Qed.

(** Splitting distributes over a separator. *)
Lemma splitAt_app (a : string) (c : ascii) (b : string) :
  sep c = true ->
  splitAt sep (a ++ String c b) = (splitAt sep a ++ splitAt sep b)%list.
Proof.
  intros Hc. induction a as [|d a IH]; simpl.
  - rewrite Hc. reflexivity.
  - destruct (sep d); [rewrite IH; reflexivity|].
    rewrite IH.
    destruct (splitAt sep a) as [|h t] eqn:Ha;
      [exfalso; exact (splitAt_nonempty a Ha)|].
    reflexivity.
Qed.

(** Joining with a separator and splitting again gives the list back. *)
Lemma splitAt_concat (c : ascii) (xs : list string) :
  sep c = true ->
  xs <> [] ->
  Forall (fun x => without sep x = true) xs ->
  splitAt sep (String.concat (String c EmptyString) xs) = xs.
Proof.
  intros Hc Hne Hxs.
  induction Hxs as [|x xs Hx Hxs IH]; [congruence|].
  destruct xs as [|y xs].
  - simpl. apply splitAt_single, Hx.
  - change (String.concat (String c "") (x :: y :: xs))
      with (x ++ String c (String.concat (String c "") (y :: xs))).
    rewrite splitAt_app by exact Hc.
    rewrite (splitAt_single x Hx), IH by discriminate.
    reflexivity.
Qed.

Lemma startsWith_app (p a b : string) :
  startsWith p a = true -> startsWith p (a ++ b) = true.
Proof.
  revert a. induction p as [|x p IH]; intros a; [reflexivity|].
  destruct a as [|y a]; simpl; [discriminate|].
  intros H. apply andb_true_iff in H as [-> H]. simpl. apply IH, H.
Qed.

Lemma includes_cons (p : string) (c : ascii) (s : string) :
  includes p s = true -> includes p (String c s) = true.
Proof.
  intros H. change (includes p (String c s))
    with (startsWith p (String c s) || includes p s).
  rewrite H. apply orb_true_r.
Qed.

(** The first piece is a prefix of the text. *)
Lemma splitAt_head_prefix (s h : string) (t : list string) :
  splitAt sep s = h :: t -> exists rest, s = h ++ rest.
Proof.
  revert h t. induction s as [|c r IH]; simpl; intros h t H.
  - injection H as <- _. exists "". reflexivity.
  - destruct (sep c).
    + injection H as <- _. exists (String c r). reflexivity.
    + destruct (splitAt sep r) as [|h' t'] eqn:Hr;
        [exfalso; exact (splitAt_nonempty r Hr)|].
      injection H as <- _.
      destruct (IH h' t' eq_refl) as (rest & ->).
      exists rest. reflexivity.
Qed.

(** What a piece holds, the text holds. *)
Lemma splitAt_includes (p s piece : string) :
  In piece (splitAt sep s) ->
  includes p piece = true ->
  includes p s = true.
Proof.
  revert piece. induction s as [|c r IH]; intros piece Hin Hp.
  - simpl in Hin. destruct Hin as [<- | []]. exact Hp.
  - simpl in Hin. destruct (sep c).
    + destruct Hin as [<- | Hin].
      * destruct p; [reflexivity | discriminate Hp].
      * apply includes_cons, (IH piece Hin Hp).
    + destruct (splitAt sep r) as [|h t] eqn:Hr;
        [exfalso; exact (splitAt_nonempty r Hr)|].
      destruct Hin as [<- | Hin].
      * change (includes p (String c h))
          with (startsWith p (String c h) || includes p h) in Hp.
        apply orb_true_iff in Hp as [Hp | Hp].
        -- destruct (splitAt_head_prefix r h t Hr) as (rest & ->).
           change (includes p (String c (h ++ rest)))
             with (startsWith p (String c h ++ rest)
                   || includes p (h ++ rest)).
           rewrite (startsWith_app _ _ rest Hp). reflexivity.
        -- apply includes_cons, (IH h (or_introl eq_refl) Hp).
      * apply includes_cons, (IH piece (or_intror Hin) Hp).
Qed.

End Splitting.

Section Trimming.

Lemma trimStart_without (p : ascii -> bool) (s : string) :
  without p s = true -> without p (trimStart s) = true.
Proof.
  induction s as [|c r IH]; simpl; [reflexivity|].
  intros H. destruct (isWhiteSpace c); [|exact H].
  apply andb_true_iff in H as [_ H]. apply IH, H.
Qed.

Lemma trimEnd_without (p : ascii -> bool) (s : string) :
  without p s = true -> without p (trimEnd s) = true.
Proof.
  induction s as [|c r IH]; simpl; [reflexivity|].
  intros H. apply andb_true_iff in H as [Hc Hr].
  specialize (IH Hr).
  destruct (trimEnd r) as [|d r'].
  - destruct (isWhiteSpace c); simpl; [reflexivity|].
    rewrite Hc. reflexivity.
  - change (without p (String c (String d r')))
      with (negb (p c) && without p (String d r')).
    rewrite Hc, IH. reflexivity.
Qed.

Lemma trim_without (p : ascii -> bool) (s : string) :
  without p s = true -> without p (trim s) = true.
Proof. intros H. apply trimEnd_without, trimStart_without, H. Qed.

Lemma trimStart_first (s : string) :
  match firstChar (trimStart s) with
  | Some a => isWhiteSpace a = false
  | None => True
  end.
Proof.
  induction s as [|c r IH]; simpl; [exact I|].
  destruct (isWhiteSpace c) eqn:Hc; [exact IH | exact Hc].
Qed.

Lemma trimEnd_first (s : string) :
  trimEnd s = "" \/ firstChar (trimEnd s) = firstChar s.
Proof.
  destruct s as [|c r]; simpl; [left; reflexivity|].
  destruct (trimEnd r); [|right; reflexivity].
  destruct (isWhiteSpace c); [left | right]; reflexivity.
Qed.

Lemma trimEnd_last (s : string) :
  match lastChar (trimEnd s) with
  | Some b => isWhiteSpace b = false
  | None => True
  end.
Proof.
  induction s as [|c r IH]; simpl; [exact I|].
  destruct (trimEnd r) as [|d r'].
  - destruct (isWhiteSpace c) eqn:Hc; simpl; [exact I | exact Hc].
  - exact IH.
Qed.

Lemma lastChar_none (s : string) : lastChar s = None -> s = "".
Proof.
  induction s as [|c r IH]; [reflexivity|].
  simpl. destruct r; [discriminate|]. intros H. discriminate (IH H).
Qed.

(** What [trim] returns has no white space at either end. *)
Lemma trim_trimmed (s : string) : trimmed (trim s) = true.
Proof.
  unfold trimmed, trim.
  pose proof (trimStart_first s) as Hfirst.
  pose proof (trimEnd_last (trimStart s)) as Hlast.
  destruct (trimEnd_first (trimStart s)) as [-> | Heq]; [reflexivity|].
  rewrite Heq.
  destruct (firstChar (trimStart s)) as [a|]; [|reflexivity].
  destruct (lastChar (trimEnd (trimStart s))) as [b|]; [|reflexivity].
  rewrite Hfirst, Hlast. reflexivity.
Qed.

Lemma trimEnd_fixed (s : string) :
  (forall b, lastChar s = Some b -> isWhiteSpace b = false) ->
  trimEnd s = s.
Proof.
  induction s as [|c r IH]; [reflexivity|].
  intros H. simpl. destruct r as [|d r'].
  - simpl. rewrite (H c eq_refl). reflexivity.
  - rewrite IH by (intros b Hb; apply H; exact Hb). reflexivity.
Qed.

(** [trim] leaves such a string as it is. *)
Lemma trim_fixed (s : string) : trimmed s = true -> trim s = s.
Proof.
  unfold trimmed, trim. intros H.
  destruct s as [|c r]; [reflexivity|].
  cbn [firstChar] in H.
  destruct (lastChar (String c r)) as [b|] eqn:Hlast;
    [|discriminate (lastChar_none _ Hlast)].
  apply andb_true_iff in H as [Hc Hb].
  apply negb_true_iff in Hc. apply negb_true_iff in Hb.
  cbn [trimStart]. rewrite Hc. apply trimEnd_fixed.
  intros b' Hb'. rewrite Hlast in Hb'. injection Hb' as <-. exact Hb.
Qed.

End Trimming.

(** ** More on the section extractor *)

Section CapturedLines.

Variable keywords : list string.

Lemma Subsequence_In {A : Type} (xs ys : list A) :
  Subsequence xs ys -> forall x, In x xs -> In x ys.
Proof.
  induction 1 as [ys | x xs ys _ IH | y xs ys _ IH]; intros z Hz.
  - destruct Hz.
  - destruct Hz as [<- | Hz]; [left; reflexivity | right; apply IH, Hz].
  - right. apply IH, Hz.
Qed.

(** Whatever the state of the loop, what it adds to [result] is taken, in
    order, from the trimmed lines that are neither blank nor headers. *)
Lemma scanLines_subsequence (lines : list string) :
  forall (capturing : bool) (result : list string),
  exists added,
    scanLines keywords capturing result lines = (result ++ added)%list
    /\ Subsequence added (map trim (filter (emitted keywords) lines)).
Proof.
  induction lines as [|line rest IH]; intros capturing result.
  - exists []. rewrite app_nil_r. split; [reflexivity | constructor].
  - cbn [scanLines filter]. unfold emitted at 1.
    destruct (isKeywordLine keywords line) eqn:Hk.
    + cbn [negb andb]. apply IH.
    + cbn [negb andb].
      destruct (capturing && hitsReferences line) eqn:Hr.
      { exists []. rewrite app_nil_r. split; [reflexivity | constructor]. }
      destruct (capturing && hitsOtherSection keywords line) eqn:Ho.
      { exists []. rewrite app_nil_r. split; [reflexivity | constructor]. }
      destruct (truthy (trim line)) eqn:Ht.
      * destruct capturing; cbn [andb].
        -- destruct (twoBlankAhead rest).
           ++ exists [trim line]. split; [reflexivity|].
              cbn [map]. constructor. constructor.
           ++ destruct (IH true (result ++ [trim line])%list)
                as (added & -> & Hsub).
              exists (trim line :: added). rewrite <- app_assoc.
              split; [reflexivity|]. cbn [map]. constructor. exact Hsub.
        -- destruct (IH false result) as (added & -> & Hsub).
           exists added. split; [reflexivity|].
           cbn [map]. constructor. exact Hsub.
      * rewrite andb_false_r. apply IH.
Qed.

End CapturedLines.

(** Where the collected lines come from, and their shape. *)
Lemma capturedLines_origin (text : string) (keywords : list string) :
  Subsequence (capturedLines text keywords)
              (map trim (filter (emitted keywords) (split_lines text)))
  /\ Forall (fun line =>
               line <> "" /\ trimmed line = true /\ singleLine line = true)
            (capturedLines text keywords).
Proof.
  assert (Hsub :
    Subsequence (capturedLines text keywords)
                (map trim (filter (emitted keywords) (split_lines text)))).
  { unfold capturedLines.
    destruct (scanLines_subsequence keywords (split_lines text) false [])
      as (added & -> & Hsub).
    exact Hsub. }
  split; [exact Hsub|].
  apply Forall_forall. intros out Hout.
  apply (Subsequence_In _ _ Hsub) in Hout.
  apply in_map_iff in Hout as (line & <- & Hline).
  apply filter_In in Hline as [Hin Hemit].
  unfold emitted in Hemit. apply andb_true_iff in Hemit as [_ Ht].
  split; [apply truthy_true_iff, Ht|]. split; [apply trim_trimmed|].
  apply trim_without.
  rewrite split_lines_splitAt in Hin.
  pose proof (splitAt_without isLF text) as Hall.
  rewrite Forall_forall in Hall. apply Hall, Hin.
Qed.

(** C10. Whatever the input string, each of the explanation, causes and
    fixes of the record [parseAIResponse] returns is a non-empty string:
    it is the collected lines joined by newlines when at least one line
    was collected for its keywords, and otherwise the first 200
    characters of the input followed by "...". *)
Theorem parseAIResponse_sections_nonempty (content : string) :
  let field keywords :=
    match capturedLines content keywords with
    | [] => substring 0 200 content ++ "..."
    | collected => join_lines collected
    end in
  (explanation (parseAIResponse content) = field explanationKeywords
   /\ explanation (parseAIResponse content) <> "")
  /\ (causes (parseAIResponse content) = field causesKeywords
      /\ causes (parseAIResponse content) <> "")
  /\ (fixes (parseAIResponse content) = field fixesKeywords
      /\ fixes (parseAIResponse content) <> "").
Proof.
  intros field.
  assert (Hfield : forall keywords,
    extractSection content keywords = field keywords
    /\ extractSection content keywords <> "").
  { intros keywords. split; [|apply extractSection_nonempty].
    unfold field, extractSection.
    destruct (capturedLines_origin content keywords) as [_ Hshape].
    destruct (capturedLines content keywords) as [|first others];
      [reflexivity|].
    inversion Hshape as [|? ? (Hfirst & _) _]; subst.
    rewrite join_lines_truthy; [reflexivity|].
    apply truthy_true_iff, Hfirst. }
  unfold parseAIResponse. cbn [explanation causes fixes].
  repeat split; apply Hfield.
Qed.

(** X1. The lines [extractSection] collects are taken in order from the
    lines of the text that are neither blank nor headers for the keyword
    set, each trimmed: nothing is invented, reordered or repeated, and a
    header line is never part of the output.  Each collected line is
    non-empty, has no white space at either end and holds no line feed. *)
Theorem capturedLines_from_text (text : string) (keywords : list string) :
  Subsequence (capturedLines text keywords)
              (map trim (filter (emitted keywords) (split_lines text)))
  /\ Forall (fun line =>
               line <> "" /\ trimmed line = true /\ singleLine line = true)
            (capturedLines text keywords).
Proof. apply capturedLines_origin. Qed.

(** X2. When [extractSection] has collected at least one line, its result
    is those lines joined by line feeds, and splitting the result at the
    line feeds gives the collected lines back: the section holds no blank
    line, and it is not the fallback text. *)
Theorem extractSection_lines (text : string) (keywords : list string) :
  capturedLines text keywords <> [] ->
  extractSection text keywords = join_lines (capturedLines text keywords)
  /\ split_lines (extractSection text keywords)
     = capturedLines text keywords.
Proof.
  intros Hne.
  destruct (capturedLines_origin text keywords) as [_ Hall].
  assert (Hjoin :
    extractSection text keywords
    = join_lines (capturedLines text keywords)).
  { unfold extractSection.
    destruct (capturedLines text keywords) as [|first others];
      [congruence|].
    inversion Hall as [|? ? (Hfirst & _) _]; subst.
    rewrite join_lines_truthy; [reflexivity|].
    apply truthy_true_iff, Hfirst. }
  split; [exact Hjoin|].
  rewrite Hjoin, split_lines_splitAt. unfold join_lines.
  apply splitAt_concat; [reflexivity | exact Hne |].
  eapply Forall_impl; [|exact Hall].
  intros line (_ & _ & Hsingle). exact Hsingle.
Qed.

Lemma extractSection_lines_witness :
  split_lines (extractSection exampleCompletion causesKeywords)
  = ["- Missing initialization"; "- Async timing issue"].
Proof.
  apply (extractSection_lines exampleCompletion causesKeywords).
  vm_compute. discriminate.
Defined.

(** ** Texts without a colon or a double asterisk *)

Section NoMarker.

Lemma colon_lowerStable : lowerStable ":".
Proof. intros [[] [] [] [] [] [] [] []]; reflexivity. Qed.

Lemma asterisk_lowerStable : lowerStable "*".
Proof. intros [[] [] [] [] [] [] [] []]; reflexivity. Qed.

Lemma startsWith_toLowerCase (p s : string) :
  allStable p -> startsWith p (toLowerCase s) = startsWith p s.
Proof.
  revert s. induction p as [|c p IH]; intros s Hp; [reflexivity|].
  destruct Hp as [Hc Hp]. destruct s as [|d s]; [reflexivity|].
  simpl. rewrite Hc, (IH s Hp). reflexivity.
Qed.

Lemma includes_toLowerCase (p s : string) :
  allStable p -> includes p (toLowerCase s) = includes p s.
Proof.
  intros Hp. induction s as [|d s IH].
  - reflexivity.
  - change (includes p (toLowerCase (String d s)))
      with (startsWith p (toLowerCase (String d s))
            || includes p (toLowerCase s)).
    rewrite (startsWith_toLowerCase p (String d s) Hp), IH. reflexivity.
Qed.

(** A line without a colon and without a double asterisk is a header for
    no keyword set. *)
Lemma isKeywordLine_needs_marker (keywords : list string) (line : string) :
  includes ":" line = false ->
  includes "**" line = false ->
  isKeywordLine keywords line = false.
Proof.
  intros Hcolon Hstars. unfold isKeywordLine.
  rewrite (includes_toLowerCase ":" line)
    by (split; [apply colon_lowerStable | exact I]).
  rewrite (includes_toLowerCase "**" line)
    by (repeat split; apply asterisk_lowerStable).
  rewrite Hcolon, Hstars.
  induction keywords as [|kw keywords IH]; [reflexivity|].
  simpl. rewrite andb_false_r. exact IH.
Qed.

Lemma lines_without (p text : string) :
  includes p text = false ->
  Forall (fun line => includes p line = false) (split_lines text).
Proof.
  intros H. apply Forall_forall. intros line Hin.
  destruct (includes p line) eqn:Hp; [|reflexivity].
  rewrite split_lines_splitAt in Hin.
  rewrite (splitAt_includes isLF p text line Hin Hp) in H. discriminate H.
Qed.

Lemma extractSection_needs_marker (content : string)
    (keywords : list string) :
  includes ":" content = false ->
  includes "**" content = false ->
  extractSection content keywords = substring 0 200 content ++ "...".
Proof.
  intros Hcolon Hstars. unfold extractSection, capturedLines.
  rewrite scanLines_never_capturing; [reflexivity|].
  pose proof (lines_without ":" content Hcolon) as H1.
  pose proof (lines_without "**" content Hstars) as H2.
  rewrite Forall_forall in H1, H2. apply Forall_forall.
  intros line Hin. apply isKeywordLine_needs_marker; auto.
Qed.

End NoMarker.

(** X3. A completion that holds no colon and no double asterisk is never
    cut into sections, whatever words it uses: the explanation, the
    causes and the fixes [parseAIResponse] returns are all three the
    first 200 characters of the completion followed by "...". *)
Theorem parseAIResponse_needs_marker (content : string) :
  includes ":" content = false ->
  includes "**" content = false ->
  explanation (parseAIResponse content) = substring 0 200 content ++ "..."
  /\ causes (parseAIResponse content) = substring 0 200 content ++ "..."
  /\ fixes (parseAIResponse content) = substring 0 200 content ++ "...".
Proof.
  intros Hcolon Hstars.
  repeat split; apply extractSection_needs_marker; assumption.
Qed.

Lemma parseAIResponse_needs_marker_witness :
  explanation (parseAIResponse "Explanation - x is null
Causes - missing init
Fixes - add a check")
  = "Explanation - x is null
Causes - missing init
Fixes - add a check...".
Proof.
  apply (parseAIResponse_needs_marker "Explanation - x is null
Causes - missing init
Fixes - add a check"); reflexivity.
Defined.

(** ** More on the reference extractor *)

Section References.

Lemma extractReferences_pieces (text : string) :
  extractReferences text
  = map stripTrailingPunct
        (flat_map (suffixFrom startsUrl) (splitAt isWhiteSpace text)).
Proof.
  unfold extractReferences.
  destruct (matchUrls_pieces text) as [_ ->].
  rewrite pieces_splitAt. reflexivity.
Qed.

Lemma solid_without (s : string) : solid s = without isWhiteSpace s.
Proof. induction s as [|c r IH]; simpl; [|rewrite IH]; reflexivity. Qed.

Lemma solid_app_left (a b : string) : solid (a ++ b) = true -> solid a = true.
Proof.
  induction a as [|c a IH]; simpl; [reflexivity|].
  intros H. apply andb_true_iff in H as [-> H]. apply IH, H.
Qed.

(** What [suffixFrom] returns satisfies [starts] and is an end part of
    the piece. *)
Lemma suffixFrom_spec (starts : string -> bool) (piece u : string) :
  In u (suffixFrom starts piece) ->
  starts u = true
  /\ (solid piece = true -> solid u = true)
  /\ (forall p, startsWith p u = true -> includes p piece = true).
Proof.
  induction piece as [|c r IH]; cbn [suffixFrom].
  - destruct (starts "") eqn:Hs; [|intros []].
    intros [<- | []]. split; [exact Hs|]. split; [auto|].
    intros p Hp. simpl. rewrite Hp. reflexivity.
  - destruct (starts (String c r)) eqn:Hs.
    + intros [<- | []]. split; [exact Hs|]. split; [auto|].
      intros p Hp.
      change (includes p (String c r))
        with (startsWith p (String c r) || includes p r).
      rewrite Hp. reflexivity.
    + intros Hin. destruct (IH Hin) as (Hu & Hsolid & Hinc).
      split; [exact Hu|]. split.
      * simpl. intros H. apply andb_true_iff in H as [_ H]. auto.
      * intros p Hp. apply includes_cons, Hinc, Hp.
Qed.

(** Stripping keeps a prefix that does not end with one of the stripped
    characters. *)
Lemma stripTrailingPunct_keeps (p u : string) (c : ascii) :
  lastChar p = Some c -> isTrailingPunct c = false ->
  startsWith p u = true ->
  startsWith p (stripTrailingPunct u) = true.
Proof.
  revert u. induction p as [|a p IH]; intros u Hlast Hc Hp;
    [discriminate Hlast|].
  destruct u as [|b u]; [discriminate Hp|].
  simpl in Hp. apply andb_true_iff in Hp as [Hab Hp].
  apply Ascii.eqb_eq in Hab. subst b.
  cbn [stripTrailingPunct].
  destruct p as [|a' p].
  - injection Hlast as ->. rewrite Hc.
    destruct (stripTrailingPunct u); simpl; rewrite Ascii.eqb_refl;
      reflexivity.
  - specialize (IH u Hlast Hc Hp).
    destruct (stripTrailingPunct u) as [|d r]; [discriminate IH|].
    cbn [startsWith]. rewrite Ascii.eqb_refl. exact IH.
Qed.

Lemma startsUrl_scheme (u : string) :
  startsUrl u = true -> startsWithScheme u = true.
Proof.
  unfold startsUrl, startsWithScheme. intros H.
  apply orb_true_iff in H as [H | H];
    apply andb_true_iff in H as [-> _]; [reflexivity | apply orb_true_r].
Qed.

End References.

(** X4. Every reference [extractReferences] returns starts with http://
    or https://, holds no white space, and does not end with one of the
    characters ) ] > , . *)
Theorem extractReferences_wellformed (text : string) :
  Forall (fun url =>
            startsWithScheme url = true
            /\ solid url = true
            /\ endsWithPunct url = false)
         (extractReferences text).
Proof.
  rewrite extractReferences_pieces. apply Forall_forall. intros url Hin.
  apply in_map_iff in Hin as (u & <- & Hu).
  apply in_flat_map in Hu as (piece & Hpiece & Hu).
  destruct (suffixFrom_spec startsUrl piece u Hu) as (Hstart & Hsolid & _).
  destruct (stripTrailingPunct_spec u) as (run & Hrun & _ & Hend).
  split; [|split].
  - apply startsUrl_scheme in Hstart. unfold startsWithScheme in *.
    apply orb_true_iff in Hstart as [H | H].
    + rewrite (stripTrailingPunct_keeps "http://" u "/"); auto.
    + rewrite (stripTrailingPunct_keeps "https://" u "/"); auto.
      apply orb_true_r.
  - apply (solid_app_left _ run). rewrite <- Hrun. apply Hsolid.
    rewrite solid_without.
    pose proof (splitAt_without isWhiteSpace text) as Hall.
    rewrite Forall_forall in Hall. apply Hall, Hpiece.
  - exact Hend.
Qed.

(** X5. A text that holds neither "http://" nor "https://" gives no
    reference at all. *)
Theorem extractReferences_none (text : string) :
  includes "http://" text = false ->
  includes "https://" text = false ->
  extractReferences text = [].
Proof.
  intros Hhttp Hhttps. rewrite extractReferences_pieces.
  destruct (flat_map (suffixFrom startsUrl) (splitAt isWhiteSpace text))
    as [|u others] eqn:Hflat; [reflexivity|].
  exfalso.
  assert (Hin : In u (flat_map (suffixFrom startsUrl)
                               (splitAt isWhiteSpace text)))
    by (rewrite Hflat; left; reflexivity).
  apply in_flat_map in Hin as (piece & Hpiece & Hu).
  destruct (suffixFrom_spec startsUrl piece u Hu) as (Hstart & _ & Hinc).
  apply startsUrl_scheme in Hstart. unfold startsWithScheme in Hstart.
  apply orb_true_iff in Hstart as [H | H].
  - rewrite (splitAt_includes isWhiteSpace _ text piece Hpiece
               (Hinc _ H)) in Hhttp. discriminate.
  - rewrite (splitAt_includes isWhiteSpace _ text piece Hpiece
               (Hinc _ H)) in Hhttps. discriminate.
Qed.

Lemma extractReferences_none_witness :
  extractReferences "See the docs at example.com/docs (no link)." = [].
Proof.
  apply (extractReferences_none
           "See the docs at example.com/docs (no link)."); reflexivity.
Defined.

(** X6. References are found piece by piece: the references of two texts
    put together with a white space character between them are the
    references of the first followed by the references of the second. *)
Theorem extractReferences_app (before : string) (space : ascii)
    (after : string) :
  isWhiteSpace space = true ->
  extractReferences (before ++ String space after)
  = (extractReferences before ++ extractReferences after)%list.
Proof.
  intros Hspace. rewrite !extractReferences_pieces.
  rewrite splitAt_app by exact Hspace.
  rewrite flat_map_app, map_app. reflexivity.
Qed.

Lemma extractReferences_app_witness :
  extractReferences "Docs: https://a.io/x.
See also (https://b.io/y)."
  = ["https://a.io/x"; "https://b.io/y"].
Proof.
  apply (extractReferences_app "Docs: https://a.io/x." LF
           "See also (https://b.io/y).").
  reflexivity.
Defined.

(** ** init.js *)

Import InitState.

Section Configuration.

(** What holds of an initialised configuration. *)
Let wellConfigured (config : Config) : Prop :=
  initialized config = true ->
  (exists key, apiKey config = Some key /\ key <> "")
  /\ Init.model config <> ""
  /\ timeout config <> 0%Z.

Lemma initAutoErrorSolution_wellConfigured (options : InitArg)
    (old config : Config) :
  initAutoErrorSolution options old = Normal config ->
  wellConfigured config.
Proof.
  unfold initAutoErrorSolution, wellConfigured.
  destruct options as [| |options]; [discriminate | discriminate |].
  unfold initWithOptions.
  destruct (optApiKey options) as [key|]; [|discriminate].
  destruct (truthy key) eqn:Hkey; [|discriminate].
  intros H _. injection H as <-. cbn. split; [|split].
  - exists key. split; [reflexivity | apply truthy_true_iff, Hkey].
  - destruct (optModel options) as [m|]; [|discriminate].
    destruct (truthy m) eqn:Hm; [apply truthy_true_iff, Hm | discriminate].
  - destruct (optTimeout options) as [t|]; [|discriminate].
    destruct (Z.eqb_spec t 0); [discriminate | assumption].
Qed.

Lemma configAfter_wellConfigured (call : Call) (config : Config) :
  wellConfigured config -> wellConfigured (configAfter call config).
Proof.
  intros Hold. destruct call as [options|]; cbn [configAfter].
  - unfold configAfterInit.
    destruct (initAutoErrorSolution options config) as [config'|e] eqn:Hinit.
    + apply (initAutoErrorSolution_wellConfigured options config), Hinit.
    + exact Hold.
  - intros H. discriminate H.
Qed.

Lemma configAfterAll_wellConfigured (calls : list Call) :
  wellConfigured (configAfterAll calls).
Proof.
  unfold configAfterAll.
  assert (Hstart : wellConfigured initialConfig)
    by (intros H; discriminate H).
  revert Hstart. generalize initialConfig as config.
  induction calls as [|call calls IH]; intros config Hconfig;
    [exact Hconfig|].
  cbn [fold_left]. apply IH, configAfter_wellConfigured, Hconfig.
Qed.

End Configuration.

(** X7. Whatever calls of [initAutoErrorSolution] and [resetConfig] were
    made since the module was loaded, in any order and with any options,
    when [getConfig] succeeds the configuration it returns has a non-empty
    API key, a non-empty model name and a timeout that is not 0. *)
Theorem getConfig_wellConfigured (calls : list Call) (config : Config) :
  getConfig (configAfterAll calls) = Normal config ->
  (exists key, apiKey config = Some key /\ key <> "")
  /\ Init.model config <> ""
  /\ timeout config <> 0%Z.
Proof.
  unfold getConfig.
  destruct (initialized (configAfterAll calls)) eqn:Hinit; [|discriminate].
  intros H. injection H as <-.
  apply (configAfterAll_wellConfigured calls), Hinit.
Qed.

Lemma getConfig_wellConfigured_witness :
  (exists key, apiKey Stubs.readyConfig = Some key /\ key <> "")
  /\ Init.model Stubs.readyConfig <> ""
  /\ timeout Stubs.readyConfig <> 0%Z.
Proof.
  apply (getConfig_wellConfigured
           [CallInit
              (InitArgObject
                 {| optApiKey := Some "sk-old"; optModel := Some "gpt-4o";
                    optTimeout := Some 0%Z; optMaxRetries := None |});
            CallReset;
            CallInit InitArgUndefined;
            CallInit
              (InitArgObject
                 {| optApiKey := Some "sk-test"; optModel := Some "";
                    optTimeout := Some 0%Z; optMaxRetries := Some 2%Z |});
            CallInit InitArgNull]).
  reflexivity.
Defined.

(** X8. A call of [initAutoErrorSolution] that gives no usable key
    throws and changes nothing.  With the argument left out, or an
    object without an API key or with an empty one, it throws the Error
    "API key is required"; with [null], for which the default [{}] does
    not apply, reading [options.apiKey] throws a [TypeError].  In each
    case a configuration that was initialised stays so with its values,
    one that was not stays so, and [getConfig] answers as before the
    call. *)
Theorem init_without_key (options : InitArg) (config : Config) :
  match options with
  | InitArgObject given =>
      optApiKey given = None \/ optApiKey given = Some ""
  | _ => True
  end ->
  initAutoErrorSolution options config
  = Thrown
      match options with
      | InitArgNull =>
          typeError "Cannot read properties of null (reading 'apiKey')"
      | _ =>
          newError "ai-error-solution: API key is required. Please provide your OpenAI API key."
      end
  /\ configAfterInit options config = config
  /\ getConfig (configAfterInit options config) = getConfig config.
Proof.
  intros Hkey.
  assert (Hthrow :
    exists thrown,
      initAutoErrorSolution options config = Thrown thrown
      /\ thrown
         = match options with
           | InitArgNull =>
               typeError "Cannot read properties of null (reading 'apiKey')"
           | _ =>
               newError "ai-error-solution: API key is required. Please provide your OpenAI API key."
           end).
  { destruct options as [| |given]; [eexists; split; reflexivity ..|].
    unfold initAutoErrorSolution, initWithOptions.
    destruct Hkey as [-> | ->]; eexists; split; reflexivity. }
  destruct Hthrow as (thrown & Hthrow & ->).
  assert (Hsame : configAfterInit options config = config).
  { unfold configAfterInit. rewrite Hthrow. reflexivity. }
  split; [exact Hthrow|]. split; [exact Hsame|]. rewrite Hsame. reflexivity.
Qed.

Lemma init_without_key_witness :
  (initAutoErrorSolution
     (InitArgObject
        {| optApiKey := Some ""; optModel := Some "gpt-4o";
           optTimeout := Some 5%Z; optMaxRetries := Some 9%Z |})
     Stubs.readyConfig
   = Thrown (newError "ai-error-solution: API key is required. Please provide your OpenAI API key.")
   /\ getConfig
        (configAfterInit
           (InitArgObject
              {| optApiKey := Some ""; optModel := Some "gpt-4o";
                 optTimeout := Some 5%Z; optMaxRetries := Some 9%Z |})
           Stubs.readyConfig)
      = Normal Stubs.readyConfig)
  /\ (initAutoErrorSolution InitArgNull Stubs.readyConfig
      = Thrown
          (typeError "Cannot read properties of null (reading 'apiKey')")
      /\ getConfig (configAfterInit InitArgNull Stubs.readyConfig)
         = Normal Stubs.readyConfig).
Proof.
  split.
  - destruct (init_without_key
                (InitArgObject
                   {| optApiKey := Some ""; optModel := Some "gpt-4o";
                      optTimeout := Some 5%Z; optMaxRetries := Some 9%Z |})
                Stubs.readyConfig) as (Hthrow & _ & Hget).
    + right. reflexivity.
    + split; [exact Hthrow | exact Hget].
  - destruct (init_without_key InitArgNull Stubs.readyConfig I)
      as (Hthrow & _ & Hget).
    split; [exact Hthrow | exact Hget].
Defined.

(** X9. A call of [initAutoErrorSolution] with a non-empty API key
    replaces the whole configuration: what [getConfig] returns afterwards
    depends on the options of that call only, not on earlier calls (an
    option left out goes back to its default), the key is the one given,
    and [maxRetries] is the number given, 0 and negative numbers
    included, whereas a timeout of 0 is replaced by 30000. *)
Theorem init_with_key (options : InitOptions) (key : string)
    (config : Config) :
  optApiKey options = Some key -> key <> "" ->
  exists config',
    getConfig (configAfterInit (InitArgObject options) config)
    = Normal config'
    /\ (forall other,
          configAfterInit (InitArgObject options) other = config')
    /\ apiKey config' = Some key
    /\ isInitialized config' = true
    /\ (forall n, optMaxRetries options = Some n -> maxRetries config' = n)
    /\ (optMaxRetries options = None -> maxRetries config' = 1%Z)
    /\ (optTimeout options = Some 0%Z -> timeout config' = 30000%Z).
Proof.
  intros Hkey Hne. apply truthy_true_iff in Hne.
  unfold configAfterInit, initAutoErrorSolution, initWithOptions.
  rewrite Hkey, Hne.
  eexists. split; [reflexivity|]. split; [reflexivity|].
  cbn. split; [reflexivity|]. split; [reflexivity|]. split; [|split].
  - intros n ->. reflexivity.
  - intros ->. reflexivity.
  - intros ->. reflexivity.
Qed.

Lemma init_with_key_witness :
  exists config',
    getConfig
      (configAfterInit
         (InitArgObject
            {| optApiKey := Some "sk-test"; optModel := None;
               optTimeout := Some 0%Z; optMaxRetries := Some 0%Z |})
         Stubs.readyConfig)
    = Normal config'
    /\ maxRetries config' = 0%Z /\ timeout config' = 30000%Z.
Proof.
  destruct (init_with_key
              {| optApiKey := Some "sk-test"; optModel := None;
                 optTimeout := Some 0%Z; optMaxRetries := Some 0%Z |}
              "sk-test" Stubs.readyConfig eq_refl)
    as (config' & Hget & _ & _ & _ & Hretries & _ & Htimeout).
  - discriminate.
  - exists config'. split; [exact Hget|]. split.
    + apply Hretries. reflexivity.
    + apply Htimeout. reflexivity.
Defined.

(** ** More on the retry loop *)

Section RetryLoopAnyProvider.

Variable provider : Provider.
Variable args : CallArgs.

(** Among the next [count] invocations, either there is a first one that
    succeeds, or all of them fail. *)
Lemma first_success (from count : nat) :
  (exists failures response,
      (failures < count)%nat
      /\ (forall i, (i < failures)%nat ->
                    exists e, provider args (from + i) = Thrown e)
      /\ provider args (from + failures) = Normal response)
  \/ (forall i, (i < count)%nat ->
                exists e, provider args (from + i) = Thrown e).
Proof.
  induction count as [|count [(failures & response & Hlt & Hfail & Hok) | Hall]].
  - right. intros i Hi. lia.
  - left. exists failures, response. repeat split; [lia | exact Hfail | exact Hok].
  - destruct (provider args (from + count)) as [response | e] eqn:Hlast.
    + left. exists count, response. repeat split; [lia | | exact Hlast].
      intros i Hi. apply Hall, Hi.
    + right. intros i Hi.
      destruct (Nat.eq_dec i count) as [-> | Hne]; [exists e; exact Hlast|].
      apply Hall. lia.
Qed.

(** All the attempts the loop can make fail. *)
Lemma retryLoop_all_fail (maxRetries : Z) (w : World) :
  (0 <= maxRetries)%Z ->
  (forall i, (i < Z.to_nat maxRetries + 1)%nat ->
             exists e, provider args (callCount w + i) = Thrown e) ->
  exists lastCause,
    provider args (callCount w + Z.to_nat maxRetries) = Thrown lastCause
    /\ retryLoop provider args maxRetries 0 None w
       = ((None, Some lastCause),
          (w ++ failedAttempts args 0 (Z.to_nat maxRetries)
             ++ [CallOpenAI args])%list).
Proof.
  intros Hm Hfail.
  destruct (retryLoop_failures provider args maxRetries
              (Z.to_nat maxRetries) 0 None w)
    as (lastError' & Hloop); [lia | intros i Hi; apply Hfail; lia |].
  destruct (Hfail (Z.to_nat maxRetries)) as (e & He); [lia|].
  exists e. split; [exact He|].
  rewrite Hloop, retryLoop_step.
  rewrite callCount_app, callCount_failedAttempts, He.
  replace (0 + Z.of_nat (Z.to_nat maxRetries))%Z with maxRetries by lia.
  rewrite Z.leb_refl, Z.ltb_irrefl.
  rewrite retryLoop_step.
  destruct (Z.leb_spec (maxRetries + 1) maxRetries); [lia|].
  rewrite <- app_assoc. reflexivity.
Qed.

(** The loop with any provider: it stops at the first success or after
    [maxRetries + 1] failures, and what leaves it is the outcome of the
    last invocation. *)
Lemma callWithRetry_last_call (maxRetries : Z) (w : World) :
  (0 <= maxRetries)%Z ->
  exists failures,
    (Z.of_nat failures <= maxRetries)%Z
    /\ (forall i, (i < failures)%nat ->
                  exists e, provider args (callCount w + i) = Thrown e)
    /\ callWithRetry provider args maxRetries w
       = (provider args (callCount w + failures),
          (w ++ failedAttempts args 0 failures ++ [CallOpenAI args])%list)
    /\ ((exists response,
            provider args (callCount w + failures) = Normal response)
        \/ failures = Z.to_nat maxRetries).
Proof.
  intros Hm.
  destruct (first_success (callCount w) (Z.to_nat maxRetries + 1))
    as [(failures & response & Hlt & Hfail & Hok) | Hall].
  - exists failures. split; [lia|]. split; [exact Hfail|].
    destruct (retryLoop_succeeds provider args maxRetries failures
                response w) as (lastError & Hloop);
      [lia | exact Hfail | exact Hok |].
    unfold callWithRetry. rewrite Hloop, Hok.
    split; [reflexivity|]. left. exists response. reflexivity.
  - destruct (retryLoop_all_fail maxRetries w Hm Hall)
      as (e & He & Hloop).
    exists (Z.to_nat maxRetries). split; [lia|]. split.
    + intros i Hi. apply Hall. lia.
    + unfold callWithRetry. rewrite Hloop, He.
      split; [reflexivity|]. right. reflexivity.
Qed.

(** With a negative [maxRetries] the loop body never runs. *)
Lemma callWithRetry_negative (maxRetries : Z) (w : World) :
  (maxRetries < 0)%Z ->
  callWithRetry provider args maxRetries w
  = (Thrown (newError "Failed to get response from OpenAI"), w).
Proof.
  intros Hm. unfold callWithRetry. rewrite retryLoop_step.
  destruct (Z.leb_spec 0 maxRetries); [lia|]. reflexivity.
Qed.

End RetryLoopAnyProvider.

(** X10. Whatever the provider does, with a [maxRetries] that is a
    non-negative integer the retry loop stops at the first invocation
    that succeeds or after [maxRetries + 1] failed ones; what leaves the
    loop is the outcome of the last invocation made (its response, or
    its cause), and the loop waits after each failed invocation but the
    last.  ([maxRetries] ranges over the integers here; [init.js] stores
    any number it is given, and for one that is not an integer the loop
    also waits after the last failed invocation.) *)
Theorem retry_stops_at_first_success
    (provider : Provider) (args : CallArgs) (maxRetries : Z) (w : World) :
  (0 <= maxRetries)%Z ->
  exists failures,
    (Z.of_nat failures <= maxRetries)%Z
    /\ (forall i, (i < failures)%nat ->
                  exists e, provider args (callCount w + i) = Thrown e)
    /\ callWithRetry provider args maxRetries w
       = (provider args (callCount w + failures),
          (w ++ flat_map (fun k => [CallOpenAI args; Sleep (1000 * 2 ^ k)])
                         (attemptsFrom 0 failures)
             ++ [CallOpenAI args])%list)
    /\ ((exists response,
            provider args (callCount w + failures) = Normal response)
        \/ failures = Z.to_nat maxRetries).
Proof.
  intros Hm.
  destruct (callWithRetry_last_call provider args maxRetries w Hm)
    as (failures & H).
  exists failures. exact H.
Qed.

Lemma retry_stops_at_first_success_witness :
  exists failures,
    (Z.of_nat failures <= 3)%Z
    /\ callWithRetry (Stubs.failsThenSucceeds 1) Stubs.sampleArgs 3 []
       = (Stubs.failsThenSucceeds 1 Stubs.sampleArgs (0 + failures),
          ([] ++ flat_map (fun k => [CallOpenAI Stubs.sampleArgs;
                                     Sleep (1000 * 2 ^ k)])
                          (attemptsFrom 0 failures)
              ++ [CallOpenAI Stubs.sampleArgs])%list).
Proof.
  destruct (retry_stops_at_first_success (Stubs.failsThenSucceeds 1)
              Stubs.sampleArgs 3 []) as (failures & Hle & _ & Hcall & _).
  - lia.
  - exists failures. split; [exact Hle | exact Hcall].
Defined.

(** X11. Whatever the provider does, with a [maxRetries] that is a
    non-negative integer the retry loop invokes it at least once and at
    most [maxRetries + 1] times, asks for one wait less than it makes
    invocations, and the waits add up to at most
    [1000 * (2^maxRetries - 1)] milliseconds.  (For integers only: see
    X10.) *)
Theorem retry_bounds
    (provider : Provider) (args : CallArgs) (maxRetries : Z) (w : World) :
  (0 <= maxRetries)%Z ->
  exists added,
    snd (callWithRetry provider args maxRetries w) = (w ++ added)%list
    /\ (1 <= callCount added)%nat
    /\ (Z.of_nat (callCount added) <= maxRetries + 1)%Z
    /\ List.length (sleeps added) = (callCount added - 1)%nat
    /\ (total (sleeps added) <= 1000 * (2 ^ maxRetries - 1))%Z.
Proof.
  intros Hm.
  destruct (callWithRetry_last_call provider args maxRetries w Hm)
    as (failures & Hle & _ & Hcall & _).
  exists (failedAttempts args 0 failures ++ [CallOpenAI args])%list.
  rewrite Hcall. cbn [snd].
  rewrite callCount_app, callCount_failedAttempts.
  rewrite sleeps_app, sleeps_failedAttempts.
  change (callCount [CallOpenAI args]) with 1%nat.
  change (sleeps [CallOpenAI args]) with (@nil Z).
  rewrite app_nil_r, length_map.
  split; [reflexivity|]. split; [lia|]. split; [lia|]. split.
  - assert (Hlen : forall first count,
               List.length (attemptsFrom first count) = count).
    { intros first count. revert first.
      induction count as [|count IH]; intros first; simpl;
        [reflexivity | rewrite IH; reflexivity]. }
    rewrite Hlen. lia.
  - rewrite total_backoff by lia. rewrite Z.pow_0_r.
    assert (2 ^ Z.of_nat failures <= 2 ^ maxRetries)%Z
      by (apply Z.pow_le_mono_r; lia).
    lia.
Qed.

Lemma retry_bounds_witness :
  exists added,
    snd (callWithRetry Stubs.alwaysFails Stubs.sampleArgs 2 [])
    = ([] ++ added)%list
    /\ (1 <= callCount added)%nat
    /\ (Z.of_nat (callCount added) <= 2 + 1)%Z
    /\ List.length (sleeps added) = (callCount added - 1)%nat
    /\ (total (sleeps added) <= 1000 * (2 ^ 2 - 1))%Z.
Proof.
  apply (retry_bounds Stubs.alwaysFails Stubs.sampleArgs 2 []). lia.
Defined.

(** ** More on the orchestration *)

Lemma reportOf_isReport (errorObj : JsError) (response : Response) :
  isReport (reportOf errorObj response) = true.
Proof.
  unfold reportOf. destruct (parseContent (content response)); reflexivity.
Qed.

Lemma reportOf_subject (errorObj : JsError) (response : Response) :
  reportSubject (reportOf errorObj response) = Some errorObj.
Proof.
  unfold reportOf. destruct (parseContent (content response)); reflexivity.
Qed.

Lemma failedAttempts_retryEvents (args : CallArgs) (first : Z)
    (count : nat) :
  Forall (retryEventWith args) (failedAttempts args first count).
Proof.
  revert first. induction count as [|count IH]; intros first.
  - constructor.
  - unfold failedAttempts. cbn [attemptsFrom flat_map app].
    constructor; [reflexivity|]. constructor; [exact I|]. apply IH.
Qed.

(** The retry loop only calls the provider, with the arguments it is
    given, and waits. *)
Lemma callWithRetry_trace (provider : Provider) (args : CallArgs)
    (maxRetries : Z) (w : World) :
  exists added,
    snd (callWithRetry provider args maxRetries w) = (w ++ added)%list
    /\ Forall (retryEventWith args) added.
Proof.
  destruct (Z_lt_le_dec maxRetries 0) as [Hneg | Hpos].
  - exists []. rewrite callWithRetry_negative by exact Hneg.
    rewrite app_nil_r. split; [reflexivity | constructor].
  - destruct (callWithRetry_last_call provider args maxRetries w Hpos)
      as (failures & _ & _ & -> & _).
    exists (failedAttempts args 0 failures ++ [CallOpenAI args])%list.
    split; [reflexivity|].
    apply Forall_app. split; [apply failedAttempts_retryEvents|].
    constructor; [reflexivity | constructor].
Qed.

Lemma retryEvents_no_report (args : CallArgs) (added : World) :
  Forall (retryEventWith args) added -> reportCount added = 0%nat.
Proof.
  unfold reportCount. induction 1 as [|e added He _ IH]; [reflexivity|].
  destruct e; simpl in *; try contradiction; exact IH.
Qed.

Lemma reportCount_app (w w' : World) :
  reportCount (w ++ w')%list = (reportCount w + reportCount w')%nat.
Proof. unfold reportCount. rewrite filter_app, length_app. reflexivity. Qed.

Lemma retryEvents_calls (args : CallArgs) (added : World) :
  Forall (retryEventWith args) added ->
  Forall (fun e => match e with
                   | CallOpenAI a => a = args
                   | _ => True
                   end) added.
Proof.
  intros H. eapply Forall_impl; [|exact H].
  intros e He. destruct e; simpl in *; auto.
Qed.

Section Orchestration.

Variable provider : Provider.
Variable config : Config.
Variable error : ErrorInput.
Variable errorObj : JsError.

Hypothesis renderable : normalizeError error = Normal errorObj.

(** What [fixError] adds to the trace: the events of the retry loop,
    then at most one report. *)
Lemma fixError_trace (options : OptionsArg) (w : World) :
  exists attempts reports,
    snd (fixError provider config error options w)
    = (w ++ attempts ++ reports)%list
    /\ Forall (retryEventWith (requestArgs config errorObj)) attempts
    /\ (initialized config = false -> attempts = [])
    /\ match options with
       | OptionsObject true | OptionsNull => reports = []
       | _ => exists report, reports = [report] /\ isReport report = true
       end.
Proof.
  rewrite (fixError_renderable provider config error errorObj options w
             renderable).
  destruct (initialized config).
  - destruct (callWithRetry_trace provider (requestArgs config errorObj)
                (maxRetries config) w) as (added & Hw & Hadded).
    destruct (callWithRetry provider (requestArgs config errorObj)
                (maxRetries config) w) as [[response | cause] w1].
    + cbn [snd] in Hw. subst w1.
      destruct options as [| |[|]]; cbn [snd].
      * exists added, [reportOf errorObj response].
        rewrite app_assoc. repeat split; [assumption | discriminate |].
        eexists. split; [reflexivity | apply reportOf_isReport].
      * exists added, []. rewrite app_nil_r.
        repeat split; [assumption | discriminate].
      * exists added, []. rewrite app_nil_r.
        repeat split; [assumption | discriminate].
      * exists added, [reportOf errorObj response].
        rewrite app_assoc. repeat split; [assumption | discriminate |].
        eexists. split; [reflexivity | apply reportOf_isReport].
    + cbn [snd] in Hw. subst w1. unfold catchOutcome.
      destruct options as [| |[|]]; cbn [snd].
      * exists added, [LogAnalysisFailure errorObj (message cause)].
        rewrite app_assoc. repeat split; [assumption | discriminate |].
        eexists. split; reflexivity.
      * exists added, []. rewrite app_nil_r.
        repeat split; [assumption | discriminate].
      * exists added, []. rewrite app_nil_r.
        repeat split; [assumption | discriminate].
      * exists added, [LogAnalysisFailure errorObj (message cause)].
        rewrite app_assoc. repeat split; [assumption | discriminate |].
        eexists. split; reflexivity.
  - unfold catchOutcome.
    destruct options as [| |[|]]; cbn [snd].
    + exists [], [LogAnalysisFailure errorObj notInitializedMessage].
      repeat split; [constructor|]. eexists. split; reflexivity.
    + exists [], []. rewrite app_nil_r. repeat split; constructor.
    + exists [], []. rewrite app_nil_r. repeat split; constructor.
    + exists [], [LogAnalysisFailure errorObj notInitializedMessage].
      repeat split; [constructor|]. eexists. split; reflexivity.
Qed.

(** With the options left out, [fixError] returns null after the events
    of the retry loop and one report about the normalised error. *)
Lemma fixError_not_silent (w : World) :
  exists attempts report,
    fixError provider config error OptionsUndefined w
    = (Normal ReturnNull, (w ++ attempts ++ [report])%list)
    /\ Forall (retryEventWith (requestArgs config errorObj)) attempts
    /\ reportSubject report = Some errorObj.
Proof.
  rewrite (fixError_renderable provider config error errorObj
             OptionsUndefined w renderable).
  unfold catchOutcome.
  destruct (initialized config).
  - destruct (callWithRetry_trace provider (requestArgs config errorObj)
                (maxRetries config) w) as (added & Hw & Hadded).
    destruct (callWithRetry provider (requestArgs config errorObj)
                (maxRetries config) w) as [[response | cause] w1];
      cbn [snd] in Hw; subst w1; exists added; eexists;
      rewrite <- app_assoc; (split; [reflexivity|]);
      (split; [exact Hadded |]);
      [apply reportOf_subject | reflexivity].
  - exists []. eexists. split; [reflexivity|].
    split; [constructor | reflexivity].
Qed.

End Orchestration.

(** X12. A negative [maxRetries] is accepted by [initAutoErrorSolution];
    with it [fixError], given a first argument [normalizeError] makes
    an error of, never invokes the provider: in silent mode it returns
    at once the failure record with the reason
    "Failed to get response from OpenAI", and does nothing else. *)
Theorem fixError_negative_maxRetries
    (provider : Provider) (config : Config) (error : ErrorInput)
    (errorObj : JsError) (w : World) :
  normalizeError error = Normal errorObj ->
  initialized config = true ->
  (maxRetries config < 0)%Z ->
  fixError provider config error (OptionsObject true) w
  = (Normal (failureRecord errorObj "Failed to get response from OpenAI"),
     w).
Proof.
  intros Herror Hinit Hneg.
  rewrite (fixError_renderable provider config error errorObj
             (OptionsObject true) w Herror), Hinit.
  rewrite callWithRetry_negative by exact Hneg. reflexivity.
Qed.

Lemma fixError_negative_maxRetries_witness :
  exists config,
    initAutoErrorSolution
      (InitArgObject
         {| optApiKey := Some "sk-test"; optModel := None;
            optTimeout := None; optMaxRetries := Some (-1)%Z |})
      initialConfig = Normal config
    /\ fixError (Stubs.failsThenSucceeds 0) config (StringValue "boom")
                (OptionsObject true) []
       = (Normal (failureRecord (newError "boom")
                    "Failed to get response from OpenAI"), []).
Proof.
  eexists. split; [reflexivity|].
  apply fixError_negative_maxRetries;
    [reflexivity | reflexivity | cbn; lia].
Defined.

(** X13. In silent mode, with a first argument [normalizeError] makes an
    error of, an initialised configuration and a [maxRetries] that is a
    non-negative integer, [fixError] returns the record built from the
    outcome of the last provider invocation.  When it succeeded with a
    content that is a string, that is the analysis of the content, with
    the model and usage the provider reports; when it succeeded with
    another content ([null] for a refusal), [parseAIResponse] throws and
    the record is the failure record with the message of that
    [TypeError]; when it failed, the record is the failure record with
    the message of its cause.  The last invocation is the first that
    succeeds, or the one numbered [maxRetries]. *)
Theorem fixError_silent_result
    (provider : Provider) (config : Config) (error : ErrorInput)
    (errorObj : JsError) (w : World) :
  normalizeError error = Normal errorObj ->
  initialized config = true ->
  (0 <= maxRetries config)%Z ->
  (exists failures,
    (Z.of_nat failures <= maxRetries config)%Z
    /\ (forall i, (i < failures)%nat ->
          exists e,
            provider (requestArgs config errorObj) (callCount w + i)
            = Thrown e)
    /\ ((exists response,
            provider (requestArgs config errorObj) (callCount w + failures)
            = Normal response)
        \/ failures = Z.to_nat (maxRetries config))
    /\ fixError provider config error (OptionsObject true) w
       = (Normal
            match provider (requestArgs config errorObj)
                           (callCount w + failures) with
            | Normal response => analysisRecord errorObj response
            | Thrown cause => failureRecord errorObj (message cause)
            end,
          (w ++ failedAttempts (requestArgs config errorObj) 0 failures
             ++ [CallOpenAI (requestArgs config errorObj)])%list))
  /\ (forall text model usage,
        analysisRecord errorObj
          {| content := ContentText text; responseModel := model;
             usage := usage |}
        = ReturnAnalysis
            {| error_name := name errorObj;
               error_message := argErrorMessage
                                  (requestArgs config errorObj);
               error_stack := argStackTrace
                                (requestArgs config errorObj) |}
            (parseAIResponse text) model usage)
  /\ (forall model usage,
        analysisRecord errorObj
          {| content := ContentNull; responseModel := model;
             usage := usage |}
        = failureRecord errorObj
            "Cannot read properties of null (reading 'split')").
Proof.
  intros Herror Hinit Hm. split; [|split; reflexivity].
  destruct (callWithRetry_last_call provider (requestArgs config errorObj)
              (maxRetries config) w Hm)
    as (failures & Hle & Hfail & Hcall & Hlast).
  exists failures. split; [exact Hle|]. split; [exact Hfail|].
  split; [exact Hlast|].
  rewrite (fixError_renderable provider config error errorObj
             (OptionsObject true) w Herror), Hinit, Hcall.
  destruct (provider (requestArgs config errorObj)
              (callCount w + failures));
    reflexivity.
Qed.

Lemma fixError_silent_result_witness :
  (exists failures,
      (Z.of_nat failures <= 2)%Z
      /\ fixError (Stubs.failsThenSucceeds 1) Stubs.readyConfig
                  (StringValue "boom") (OptionsObject true) []
         = (Normal
              match Stubs.failsThenSucceeds 1
                      (requestArgs Stubs.readyConfig (newError "boom"))
                      (0 + failures) with
              | Normal response => analysisRecord (newError "boom") response
              | Thrown cause =>
                  failureRecord (newError "boom") (message cause)
              end,
            ([] ++ failedAttempts
                     (requestArgs Stubs.readyConfig (newError "boom"))
                     0 failures
                ++ [CallOpenAI
                      (requestArgs Stubs.readyConfig
                         (newError "boom"))])%list))
  /\ fixError Stubs.refuses Stubs.readyConfig (StringValue "boom")
              (OptionsObject true) []
     = (Normal
          (failureRecord (newError "boom")
             "Cannot read properties of null (reading 'split')"),
        [CallOpenAI (requestArgs Stubs.readyConfig (newError "boom"))]).
Proof.
  split.
  - destruct (fixError_silent_result (Stubs.failsThenSucceeds 1)
                Stubs.readyConfig (StringValue "boom") (newError "boom") [])
      as ((failures & Hle & _ & _ & Hresult) & _).
    + reflexivity.
    + reflexivity.
    + cbn. lia.
    + exists failures. split; [exact Hle | exact Hresult].
  - destruct (fixError_silent_result Stubs.refuses
                Stubs.readyConfig (StringValue "boom") (newError "boom") [])
      as ((failures & _ & Hfail & _ & Hresult) & _).
    + reflexivity.
    + reflexivity.
    + cbn. lia.
    + destruct failures as [|failures].
      * exact Hresult.
      * destruct (Hfail 0%nat) as (e & He); [lia | discriminate He].
Defined.

(** X14. Before the package is initialised [fixError] never invokes the
    provider and never waits, whatever its arguments.  Given a first
    argument [normalizeError] makes an error of, and options that are
    left out or not silent, all it does is report the failure once, with
    the "Package not initialized" reason, and return null; given a first
    argument on which [normalizeError] throws, it does nothing and
    raises what was thrown. *)
Theorem fixError_before_init
    (provider : Provider) (config : Config) (error : ErrorInput)
    (options : OptionsArg) (w : World) :
  initialized config = false ->
  (exists added,
      snd (fixError provider config error options w) = (w ++ added)%list
      /\ callCount added = 0%nat /\ sleeps added = [])
  /\ (forall errorObj,
        normalizeError error = Normal errorObj ->
        options = OptionsUndefined \/ options = OptionsObject false ->
        fixError provider config error options w
        = (Normal ReturnNull,
           (w ++ [LogAnalysisFailure errorObj
                    notInitializedMessage])%list))
  /\ (forall thrown,
        normalizeError error = Thrown thrown ->
        fixError provider config error options w = (Thrown thrown, w)).
Proof.
  intros Hinit. split; [|split].
  - destruct (normalizeError error) as [errorObj | thrown] eqn:Herror.
    + rewrite (fixError_renderable provider config error errorObj options
                 w Herror), Hinit.
      unfold catchOutcome.
      destruct options as [| |[|]]; cbn [snd].
      * eexists. split; [reflexivity|]. split; reflexivity.
      * exists []. rewrite app_nil_r. repeat split.
      * exists []. rewrite app_nil_r. repeat split.
      * eexists. split; [reflexivity|]. split; reflexivity.
    + rewrite (fixError_unrenderable provider config error thrown options
                 w Herror).
      exists []. rewrite app_nil_r. repeat split.
  - intros errorObj Herror Hoptions.
    rewrite (fixError_renderable provider config error errorObj options
               w Herror), Hinit.
    unfold catchOutcome. destruct Hoptions as [-> | ->]; reflexivity.
  - intros thrown Herror.
    apply fixError_unrenderable, Herror.
Qed.

Lemma fixError_before_init_witness :
  fixError Stubs.alwaysFails initialConfig (StringValue "boom")
           OptionsUndefined []
  = (Normal ReturnNull,
     [LogAnalysisFailure (newError "boom") notInitializedMessage])
  /\ fixError Stubs.alwaysFails initialConfig Stubs.bareObject
              OptionsUndefined []
     = (Thrown (typeError "Cannot convert object to primitive value"), []).
Proof.
  split.
  - apply (fixError_before_init Stubs.alwaysFails initialConfig
             (StringValue "boom") OptionsUndefined []).
    + reflexivity.
    + reflexivity.
    + left. reflexivity.
  - apply (fixError_before_init Stubs.alwaysFails initialConfig
             Stubs.bareObject OptionsUndefined []).
    + reflexivity.
    + reflexivity.
Defined.

(** X15. Given a first argument [normalizeError] makes an error of,
    [fixError] reports on the console or returns data, never both.  With
    the options left out or not silent it returns null and makes exactly
    one report, which is the last thing it does; in silent mode it makes
    no report and returns a record, never null.  This holds for every
    provider and every configuration.  Given a first argument on which
    [normalizeError] throws, it does neither: it raises what was thrown,
    and the trace is as it was. *)
Theorem fixError_report_or_data
    (provider : Provider) (config : Config) (error : ErrorInput)
    (w : World) :
  (forall errorObj,
      normalizeError error = Normal errorObj ->
      (forall options,
          options = OptionsUndefined \/ options = OptionsObject false ->
          fst (fixError provider config error options w)
          = Normal ReturnNull
          /\ (exists before report,
                 snd (fixError provider config error options w)
                 = (before ++ [report])%list
                 /\ isReport report = true)
          /\ reportCount (snd (fixError provider config error options w))
             = (reportCount w + 1)%nat)
      /\ (reportCount
            (snd (fixError provider config error (OptionsObject true) w))
          = reportCount w
          /\ exists value,
               fst (fixError provider config error (OptionsObject true) w)
               = Normal value
               /\ value <> ReturnNull))
  /\ (forall thrown,
        normalizeError error = Thrown thrown ->
        forall options,
          fixError provider config error options w = (Thrown thrown, w)).
Proof.
  split; [|intros thrown Herror options;
           apply fixError_unrenderable, Herror].
  intros errorObj Herror. split.
  - intros options Hoptions.
    destruct (fixError_trace provider config error errorObj Herror
                options w)
      as (attempts & reports & Hw & Hattempts & _ & Hreports).
    assert (Hreport : exists report,
               reports = [report] /\ isReport report = true)
      by (destruct Hoptions as [-> | ->]; exact Hreports).
    destruct Hreport as (report & -> & Hreport).
    split; [|split].
    + rewrite (fixError_renderable provider config error errorObj options
                 w Herror).
      unfold catchOutcome.
      destruct (initialized config);
        [destruct (callWithRetry provider _ (maxRetries config) w)
           as [[response | cause] w1]|];
        destruct Hoptions as [-> | ->]; reflexivity.
    + exists (w ++ attempts)%list, report.
      rewrite Hw, app_assoc. split; [reflexivity | exact Hreport].
    + rewrite Hw, !reportCount_app.
      rewrite (retryEvents_no_report _ _ Hattempts).
      assert (Hone : reportCount [report] = 1%nat)
        by (unfold reportCount; simpl; rewrite Hreport; reflexivity).
      rewrite Hone. lia.
  - destruct (fixError_trace provider config error errorObj Herror
                (OptionsObject true) w)
      as (attempts & reports & Hw & Hattempts & _ & ->).
    split.
    + rewrite Hw, !reportCount_app.
      rewrite (retryEvents_no_report _ _ Hattempts).
      change (reportCount []) with 0%nat. lia.
    + rewrite (fixError_renderable provider config error errorObj
                 (OptionsObject true) w Herror).
      unfold catchOutcome, analysisRecord, failureRecord.
      destruct (initialized config);
        [destruct (callWithRetry provider _ (maxRetries config) w)
           as [[response | cause] w1];
         [destruct (parseContent (content response))|]|];
        eexists; (split; [reflexivity | discriminate]).
Qed.

Lemma fixError_report_or_data_witness :
  fst (fixError (Stubs.failsThenSucceeds 0) Stubs.readyConfig
         (StringValue "boom") OptionsUndefined [])
  = Normal ReturnNull
  /\ reportCount
       (snd (fixError (Stubs.failsThenSucceeds 0) Stubs.readyConfig
               (StringValue "boom") OptionsUndefined []))
     = 1%nat.
Proof.
  destruct (fixError_report_or_data (Stubs.failsThenSucceeds 0)
              Stubs.readyConfig (StringValue "boom") []) as [Hrenders _].
  destruct (Hrenders (newError "boom") eq_refl) as [Hloud _].
  destruct (Hloud OptionsUndefined (or_introl eq_refl))
    as (Hnull & _ & Hcount).
  split; [exact Hnull | exact Hcount].
Defined.

(** X16. Every provider invocation [fixError] makes, for any first
    argument, in any mode and on any attempt, carries the same
    arguments, built from the error [normalizeError] made: the key,
    model and timeout of the configuration, a message that is never
    empty ("Unknown error" stands in for an empty one) and a stack trace
    that is never empty or missing.  (When [normalizeError] throws there
    is no invocation.) *)
Theorem fixError_call_arguments
    (provider : Provider) (config : Config) (error : ErrorInput)
    (options : OptionsArg) (w : World) :
  (exists added,
      snd (fixError provider config error options w) = (w ++ added)%list
      /\ Forall (fun e => match e with
                          | CallOpenAI a =>
                              exists errorObj,
                                normalizeError error = Normal errorObj
                                /\ a = requestArgs config errorObj
                          | _ => True
                          end) added)
  /\ (forall errorObj,
        argApiKey (requestArgs config errorObj) = apiKey config
        /\ argModel (requestArgs config errorObj) = Init.model config
        /\ argTimeout (requestArgs config errorObj) = timeout config
        /\ argErrorMessage (requestArgs config errorObj) <> ""
        /\ stackTruthy (argStackTrace (requestArgs config errorObj))
           = true).
Proof.
  split; [|intros errorObj; repeat split].
  - destruct (normalizeError error) as [errorObj | thrown] eqn:Herror.
    + destruct (fixError_trace provider config error errorObj Herror
                  options w)
        as (attempts & reports & Hw & Hattempts & _ & Hreports).
      exists (attempts ++ reports)%list. split; [exact Hw|].
      apply Forall_app. split.
      * eapply Forall_impl; [|exact Hattempts].
        intros e He. destruct e; simpl in *; auto.
        exists errorObj. split; [reflexivity | exact He].
      * destruct options as [| |[|]];
          try (subst reports; constructor);
          destruct Hreports as (report & -> & Hreport);
          (constructor; [destruct report; try discriminate; exact I
                        | constructor]).
    + rewrite (fixError_unrenderable provider config error thrown options
                 w Herror).
      exists []. rewrite app_nil_r. split; [reflexivity | constructor].
  - cbn. destruct (truthy (message errorObj)) eqn:Ht;
      [apply truthy_true_iff, Ht | discriminate].
  - cbn. destruct (stackTruthy (stack errorObj)) eqn:Hs;
      [exact Hs | reflexivity].
Qed.

(** ** The wrapper and the global handlers *)

Import Handlers.

Section GlobalHandlers.

Variable provider : Provider.
Variable config : Config.

Lemma skipn_prefix {A : Type} (xs ys : list A) :
  skipn (List.length xs) (xs ++ ys) = ys.
Proof. induction xs as [|x xs IH]; simpl; [reflexivity | exact IH]. Qed.

(** [await fixError(error)] in a process, for a value [normalizeError]
    makes an error of: null comes back, and the process trace grows by
    the retry events and one report about the normalised error. *)
Lemma awaitFixError_trace (error : ErrorInput) (errorObj : JsError)
    (trace : ProcessTrace) :
  normalizeError error = Normal errorObj ->
  exists attempts report,
    awaitFixError provider config error trace
    = (Normal ReturnNull,
       (trace ++ map Analysis (attempts ++ [report]))%list)
    /\ Forall (retryEventWith (requestArgs config errorObj)) attempts
    /\ reportSubject report = Some errorObj.
Proof.
  intros Herror. unfold awaitFixError.
  destruct (fixError_not_silent provider config error errorObj Herror
              (analysisEvents trace))
    as (attempts & report & Hfix & Hattempts & Hreport).
  exists attempts, report. rewrite Hfix. cbn [fst snd].
  rewrite skipn_prefix. repeat split; assumption.
Qed.

(** [await fixError(error)] in a process, for a value on which
    [normalizeError] throws: the throw comes back and the trace is as it
    was. *)
Lemma awaitFixError_unrenderable (error : ErrorInput) (thrown : JsError)
    (trace : ProcessTrace) :
  normalizeError error = Thrown thrown ->
  awaitFixError provider config error trace = (Thrown thrown, trace).
Proof.
  intros Herror. unfold awaitFixError.
  rewrite (fixError_unrenderable provider config error thrown
             OptionsUndefined (analysisEvents trace) Herror).
  cbn [fst snd]. rewrite <- (app_nil_r (analysisEvents trace)) at 2.
  rewrite skipn_prefix. cbn [map]. rewrite app_nil_r. reflexivity.
Qed.

End GlobalHandlers.

(** X17. A function wrapped by [wrapWithErrorHandler] that returns ends
    as the function itself does, with the same value and the same
    effects.  When the function throws a value [normalizeError] makes an
    error of, the wrapper throws the very same value, after one analysis
    of it that ends with one report about it: the analysis does not
    swallow or replace the error.  When the function throws a value on
    which [normalizeError] throws (an [Object.create(null)]), the
    wrapper throws what the conversion threw in place of that value, and
    nothing is reported. *)
Theorem wrapWithErrorHandler_outcome {Args A : Type}
    (provider : Provider) (config : Config)
    (fn : Args -> Action A) (args : Args) (w : World) :
  match fn args w with
  | (Returned value, w1) =>
      wrapWithErrorHandler provider config fn args w = (Returned value, w1)
  | (Raised error, w1) =>
      match normalizeError error with
      | Normal errorObj =>
          exists attempts report,
            wrapWithErrorHandler provider config fn args w
            = (Raised error, (w1 ++ attempts ++ [report])%list)
            /\ Forall (retryEventWith (requestArgs config errorObj))
                      attempts
            /\ reportSubject report = Some errorObj
      | Thrown thrown =>
          wrapWithErrorHandler provider config fn args w
          = (Raised (ErrorObject thrown), w1)
      end
  end.
Proof.
  unfold wrapWithErrorHandler.
  destruct (fn args w) as [[a | error] w1]; [reflexivity|].
  destruct (normalizeError error) as [errorObj | thrown] eqn:Herror.
  - destruct (fixError_not_silent provider config error errorObj Herror w1)
      as (attempts & report & Hfix & Hattempts & Hreport).
    rewrite Hfix. exists attempts, report. repeat split; assumption.
  - rewrite (fixError_unrenderable provider config error thrown
               OptionsUndefined w1 Herror).
    reflexivity.
Qed.

(** X18. What the listeners [setupGlobalHandler] registers do.  Each
    prints its banner first.  Given a value [normalizeError] makes an
    error of (for the rejection listener: an Error, or a value [String]
    converts), it then runs one analysis that ends with one report, and
    ends the process with code 1 exactly when [exitOnError] was truthy:
    with the options left out the process is never ended, and when it is
    ended the report has been made before.  Given a value that cannot be
    converted, the listener itself throws what the conversion threw,
    right after the banner: nothing is reported and the process is not
    ended by the listener. *)
Theorem setupGlobalHandler_listeners
    (options : HandlerOptions) (listeners : Listeners)
    (trace0 trace0' : ProcessTrace)
    (provider : Provider) (config : Config)
    (error : ErrorInput) (trace : ProcessTrace) :
  setupGlobalHandler options trace0 = (Normal listeners, trace0') ->
  let exitOnError :=
    match options with
    | HandlerOptionsObject true => true
    | _ => false
    end in
  trace0' = (trace0 ++ [ConsoleLog HandlersRegisteredBanner])%list
  /\ match normalizeError error with
     | Normal errorObj =>
         exists attempts report,
           uncaughtException listeners provider config error trace
           = (Normal tt,
              (trace ++ [ConsoleError UncaughtExceptionBanner]
                 ++ map Analysis (attempts ++ [report])
                 ++ (if exitOnError then [ProcessExit 1] else []))%list)
           /\ reportSubject report = Some errorObj
     | Thrown thrown =>
         uncaughtException listeners provider config error trace
         = (Thrown thrown,
            (trace ++ [ConsoleError UncaughtExceptionBanner])%list)
     end
  /\ match error with
     | PlainRecord _ _ _ (Unrenderable thrown)
     | OtherValue (Unrenderable thrown) =>
         unhandledRejection listeners provider config error trace
         = (Thrown thrown,
            (trace ++ [ConsoleError UnhandledRejectionBanner])%list)
     | _ =>
         exists attempts report,
           unhandledRejection listeners provider config error trace
           = (Normal tt,
              (trace ++ [ConsoleError UnhandledRejectionBanner]
                 ++ map Analysis (attempts ++ [report])
                 ++ (if exitOnError then [ProcessExit 1] else []))%list)
           /\ isReport report = true
     end.
Proof.
  intros Hsetup exitOnError.
  assert (Hlisteners :
    trace0' = (trace0 ++ [ConsoleLog HandlersRegisteredBanner])%list
    /\ uncaughtException listeners
       = (fun provider config =>
            onUncaughtException provider config exitOnError)
    /\ unhandledRejection listeners
       = (fun provider config =>
            onUnhandledRejection provider config exitOnError)).
  { unfold setupGlobalHandler in Hsetup. subst exitOnError.
    destruct options as [| |[|]]; try discriminate Hsetup;
      injection Hsetup as <- <-; repeat split. }
  destruct Hlisteners as (Htrace & Hu & Hr).
  split; [exact Htrace|]. rewrite Hu, Hr. split.
  - unfold onUncaughtException.
    destruct (normalizeError error) as [errorObj | thrown] eqn:Herror.
    + destruct (awaitFixError_trace provider config error errorObj
                  (trace ++ [ConsoleError UncaughtExceptionBanner])%list
                  Herror)
        as (attempts & report & -> & _ & Hreport).
      exists attempts, report. split; [|exact Hreport].
      unfold thenExit. destruct exitOnError;
        rewrite <- ?app_assoc, ?app_nil_r; reflexivity.
    + rewrite (awaitFixError_unrenderable provider config error thrown
                 _ Herror).
      reflexivity.
  - assert (Hrenders : forall errorObj,
      exists attempts report,
        thenExit exitOnError
          (awaitFixError provider config (ErrorObject errorObj)
             (trace ++ [ConsoleError UnhandledRejectionBanner])%list)
        = (Normal tt,
           (trace ++ [ConsoleError UnhandledRejectionBanner]
              ++ map Analysis (attempts ++ [report])
              ++ (if exitOnError then [ProcessExit 1] else []))%list)
        /\ isReport report = true).
    { intros errorObj.
      destruct (awaitFixError_trace provider config (ErrorObject errorObj)
                  errorObj
                  (trace ++ [ConsoleError UnhandledRejectionBanner])%list
                  eq_refl)
        as (attempts & report & -> & _ & Hreport).
      exists attempts, report. split.
      - unfold thenExit. destruct exitOnError;
          rewrite <- ?app_assoc, ?app_nil_r; reflexivity.
      - destruct report; try discriminate Hreport; reflexivity. }
    unfold onUnhandledRejection.
    destruct error as [e | text | recMessage recName recStack [text | thrown]
                      | [text | thrown]];
      try reflexivity; apply Hrenders.
Qed.

Lemma setupGlobalHandler_listeners_witness :
  exists listeners,
    setupGlobalHandler HandlerOptionsUndefined []
    = (Normal listeners, [ConsoleLog HandlersRegisteredBanner])
    /\ uncaughtException listeners Stubs.alwaysFails initialConfig
         (StringValue "boom") []
       = (Normal tt,
          [ConsoleError UncaughtExceptionBanner;
           Analysis (LogAnalysisFailure (newError "boom")
                       notInitializedMessage)])
    /\ unhandledRejection listeners Stubs.alwaysFails initialConfig
         Stubs.bareObject []
       = (Thrown (typeError "Cannot convert object to primitive value"),
          [ConsoleError UnhandledRejectionBanner]).
Proof.
  eexists. split; [reflexivity|].
  destruct (setupGlobalHandler_listeners HandlerOptionsUndefined _ [] _
              Stubs.alwaysFails initialConfig Stubs.bareObject []
              eq_refl) as (_ & _ & Hrejection).
  split; [reflexivity | exact Hrejection].
Defined.

(** X19. A promise rejected with a value that is not an Error is analysed
    as [new Error(String(reason))].  For a record that has a message of
    its own, the report of the ['unhandledRejection'] listener is thus
    about an error whose message is the text of the record as a whole
    and whose name is "Error", where [fixError] called on the record
    itself reports the record's message. *)
Theorem unhandledRejection_record
    (provider : Provider) (config : Config) (exitOnError : bool)
    (recMessage : string) (recName recStack : option string)
    (rendering : string) (trace : ProcessTrace) :
  recMessage <> "" ->
  let reason :=
    PlainRecord (Some recMessage) recName recStack (Renders rendering) in
  (exists errorObj,
      normalizeError reason = Normal errorObj
      /\ message errorObj = recMessage)
  /\ exists attempts report,
       fst (onUnhandledRejection provider config exitOnError reason trace)
       = Normal tt
       /\ snd (onUnhandledRejection provider config exitOnError reason trace)
          = (trace ++ [ConsoleError UnhandledRejectionBanner]
               ++ map Analysis (attempts ++ [report])
               ++ (if exitOnError then [ProcessExit 1] else []))%list
       /\ reportSubject report = Some (newError rendering).
Proof.
  intros Hne reason. split.
  - cbn. apply truthy_true_iff in Hne. rewrite Hne.
    eexists. split; reflexivity.
  - unfold onUnhandledRejection. cbn [reason].
    destruct (awaitFixError_trace provider config
                (ErrorObject (newError rendering)) (newError rendering)
                (trace ++ [ConsoleError UnhandledRejectionBanner])%list
                eq_refl)
      as (attempts & report & -> & _ & Hreport).
    exists attempts, report. unfold thenExit.
    destruct exitOnError; cbn [fst snd];
      rewrite <- ?app_assoc, ?app_nil_r; repeat split; exact Hreport.
Qed.

Lemma unhandledRejection_record_witness :
  onUnhandledRejection Stubs.alwaysFails initialConfig true
    (PlainRecord (Some "quota exceeded") (Some "ApiError") None
                 (Renders "[object Object]")) []
  = (Normal tt,
     [ConsoleError UnhandledRejectionBanner;
      Analysis (LogAnalysisFailure (newError "[object Object]")
                  notInitializedMessage);
      ProcessExit 1]).
Proof.
  destruct (unhandledRejection_record Stubs.alwaysFails initialConfig true
              "quota exceeded" (Some "ApiError") None "[object Object]" [])
    as (_ & _).
  - discriminate.
  - reflexivity.
Defined.

(** ** logger.js *)

Import Logger.

Section Formatting.

Lemma without_app (p : ascii -> bool) (a b : string) :
  without p (a ++ b) = without p a && without p b.
Proof.
  induction a as [|c a IH]; simpl; [reflexivity|].
  rewrite IH. apply andb_assoc.
Qed.

Lemma formatLine_shown (color line : string) :
  formatLine color line = shownLine color line.
Proof.
  unfold formatLine, shownLine, isCodeLine.
  destruct (truthy (trim line)); cbn [negb]; [|reflexivity].
  destruct (startsWith "```" (trim line) || startsCall (trim line));
    [reflexivity|].
  destruct (startsBullet (trim line)); [reflexivity|].
  destruct (startsNumberedItem (trim line)); reflexivity.
Qed.

Lemma shownLine_singleLine (color line : string) :
  singleLine color = true -> singleLine line = true ->
  singleLine (shownLine color line) = true.
Proof.
  intros Hcolor Hline. unfold shownLine, singleLine in *.
  destruct (truthy (trim line)); [|reflexivity].
  rewrite !without_app. rewrite (trim_without isLF line Hline).
  destruct (isCodeLine (trim line)); [reflexivity|].
  rewrite Hcolor. reflexivity.
Qed.

End Formatting.

(** X20. [formatText] works line by line: for a colour code without a
    line feed, its result has exactly as many lines as the text, a blank
    line is shown as an empty line, and every other line is shown as two
    spaces, a colour code, the trimmed line and the reset code.  The
    colour code is the dim one for a line of code and the given one for
    every other line: bullets and numbered items are shown like plain
    text. *)
Theorem formatText_lines (text color : string) :
  singleLine color = true ->
  split_lines (formatText text color)
  = map (shownLine color) (split_lines text)
  /\ List.length (split_lines (formatText text color))
     = List.length (split_lines text).
Proof.
  intros Hcolor.
  assert (Hlines :
    split_lines (formatText text color)
    = map (shownLine color) (split_lines text)).
  { unfold formatText, join_lines.
    rewrite (map_ext _ _ (formatLine_shown color)).
    rewrite split_lines_splitAt. apply splitAt_concat; [reflexivity | |].
    - rewrite split_lines_splitAt.
      destruct (splitAt isLF text) eqn:H;
        [exfalso; exact (splitAt_nonempty isLF text H) | discriminate].
    - apply Forall_map. rewrite split_lines_splitAt.
      eapply Forall_impl; [|apply splitAt_without].
      intros line Hline. apply shownLine_singleLine; assumption. }
  split; [exact Hlines|]. rewrite Hlines. apply length_map.
Qed.

Lemma formatText_lines_witness :
  split_lines (formatText "- Add a null check

  fetch(url)" green)
  = [String " " (String " " (green ++ "- Add a null check" ++ reset));
     "";
     String " " (String " " (dim ++ "fetch(url)" ++ reset))].
Proof.
  apply (formatText_lines "- Add a null check

  fetch(url)" green).
  reflexivity.
Defined.

(** X21. The report of an analysis made by [parseAIResponse] always shows
    the three sections, explanation, causes and fixes, each under its
    heading: [logErrorAnalysis] prints 15 lines, and after the fixes the
    references under their heading when there is at least one. *)
Theorem logErrorAnalysis_parsed (glyphs : Glyphs) (error : JsError)
    (content : string) :
  let analysis := parseAIResponse content in
  logErrorAnalysis glyphs error analysis
  = ([String LF rule;
      (red ++ bright ++ crossMark glyphs ++ " Error Detected: "
         ++ (if truthy (name error) then name error else "Error")
         ++ reset)%string;
      (red ++ message error ++ reset)%string;
      "";
      (cyan ++ bright ++ brain glyphs ++ " AI Explanation:" ++ reset)%string;
      formatText (explanation analysis) white;
      "";
      (yellow ++ bright ++ warningSign glyphs ++ "  Likely Causes:"
         ++ reset)%string;
      formatText (causes analysis) yellow;
      "";
      (green ++ bright ++ wrench glyphs ++ " Suggested Fixes:"
         ++ reset)%string;
      formatText (fixes analysis) green;
      ""]
     ++ match references analysis with
        | [] => []
        | refs =>
            [(blue ++ bright ++ books glyphs ++ " References:"
                ++ reset)%string]
            ++ map (fun ref => (blue ++ "  - " ++ ref ++ reset)%string) refs
            ++ [""]
        end
     ++ [(gray ++ dim ++ lightBulb glyphs
            ++ " Note: AI suggestions may not be 100% accurate. Always verify fixes before applying."
            ++ reset)%string;
         (rule ++ String LF EmptyString)%string])%list
  /\ List.length (logErrorAnalysis glyphs error analysis)
     = (15 + match references analysis with
             | [] => 0
             | refs => List.length refs + 2
             end)%nat.
Proof.
  intros analysis.
  assert (Hsection : forall keywords,
             truthy (extractSection content keywords) = true)
    by (intros keywords; apply truthy_true_iff, extractSection_nonempty).
  subst analysis. unfold logErrorAnalysis, parseAIResponse.
  cbn [explanation causes fixes references].
  rewrite !Hsection. split; [reflexivity|].
  cbn [List.app List.length].
  destruct (extractReferences content) as [|ref refs]; [reflexivity|].
  cbn [List.app List.length].
  rewrite !length_app, length_map. cbn [List.length]. lia.
Qed.

(** ** normalizeError *)



(** ** Headers *)

Section Headers.

Lemma toLowerChar_idempotent (c : ascii) :
  toLowerChar (toLowerChar c) = toLowerChar c.
Proof. destruct c as [[] [] [] [] [] [] [] []]; reflexivity. Qed.

Lemma toLowerCase_idempotent (s : string) :
  toLowerCase (toLowerCase s) = toLowerCase s.
Proof.
  induction s as [|c r IH]; simpl; [reflexivity|].
  rewrite toLowerChar_idempotent, IH. reflexivity.
Qed.

Lemma toLowerCase_split (s : string) :
  split_lines (toLowerCase s) = map toLowerCase (split_lines s).
Proof.
  induction s as [|c r IH]; [reflexivity|].
  cbn [toLowerCase split_lines].
  assert (Hlf : Ascii.eqb (toLowerChar c) LF = Ascii.eqb c LF)
    by (destruct c as [[] [] [] [] [] [] [] []]; reflexivity).
  rewrite Hlf, IH.
  destruct (Ascii.eqb c LF); [reflexivity|].
  destruct (split_lines r); reflexivity.
Qed.

End Headers.

(** X23. Headers are found whatever the case of the letters: a line and
    its lower-case form are headers for the same keyword sets, so a text
    and its lower-case form have their headers on the same lines. *)
Theorem isKeywordLine_ignores_case (keywords : list string) :
  (forall line,
      isKeywordLine keywords (toLowerCase line)
      = isKeywordLine keywords line)
  /\ (forall text,
        map (isKeywordLine keywords) (split_lines (toLowerCase text))
        = map (isKeywordLine keywords) (split_lines text)).
Proof.
  assert (Hline : forall line,
             isKeywordLine keywords (toLowerCase line)
             = isKeywordLine keywords line)
    by (intros line; unfold isKeywordLine;
        rewrite toLowerCase_idempotent; reflexivity).
  split; [exact Hline|].
  intros text. rewrite toLowerCase_split, map_map.
  apply map_ext, Hline.
Qed.

(** X24. What comes before the first header has no part in what is
    collected: lines that are not headers for the keyword set, put in
    front of a text, leave the collected lines as they are. *)
Theorem capturedLines_skip_preamble
    (preamble text : string) (keywords : list string) :
  Forall (fun line => isKeywordLine keywords line = false)
         (split_lines preamble) ->
  capturedLines (preamble ++ String LF text) keywords
  = capturedLines text keywords.
Proof.
  intros Hpre. unfold capturedLines.
  rewrite (split_lines_splitAt (preamble ++ String LF text)).
  rewrite splitAt_app by reflexivity.
  rewrite <- !split_lines_splitAt.
  apply scanLines_skips_before_header, Hpre.
Qed.

Lemma capturedLines_skip_preamble_witness :
  capturedLines
    ("Here is my analysis of the error" ++ String LF exampleCompletion)
    causesKeywords
  = capturedLines exampleCompletion causesKeywords.
Proof.
  apply (capturedLines_skip_preamble "Here is my analysis of the error"
           exampleCompletion causesKeywords).
  repeat constructor.
Defined.

(** ** callOpenAI *)

Import Curl.

Section Escaping.

Lemma escapeQuotes_first (s : string) :
  firstChar (escapeQuotes s) <> Some quote.
Proof.
  destruct s as [|c r]; simpl; [discriminate|].
  destruct (Ascii.eqb c quote) eqn:Hc; simpl; [discriminate|].
  intros H. injection H as ->. discriminate Hc.
Qed.

Lemma unescape_escape (s : string) : unescapeQuotes (escapeQuotes s) = s.
Proof.
  induction s as [|c r IH]; [reflexivity|].
  cbn [escapeQuotes]. destruct (Ascii.eqb c quote) eqn:Hc.
  - apply Ascii.eqb_eq in Hc. subst c.
    cbn [unescapeQuotes]. rewrite !Ascii.eqb_refl. cbn [andb].
    rewrite IH. reflexivity.
  - pose proof (escapeQuotes_first r) as Hfirst.
    cbn [unescapeQuotes].
    destruct (escapeQuotes r) as [|d r'] eqn:Hr.
    + destruct r as [|c' r'']; [reflexivity|].
      simpl in Hr. destruct (Ascii.eqb c' quote); discriminate Hr.
    + assert (Hd : Ascii.eqb d quote = false).
      { destruct (Ascii.eqb d quote) eqn:Hd; [|reflexivity].
        apply Ascii.eqb_eq in Hd. subst d. exfalso. apply Hfirst.
        reflexivity. }
      rewrite Hd, andb_false_r, IH. reflexivity.
Qed.

Lemma escapeQuotes_escaped (previous : option ascii) (s : string) :
  quotesEscaped previous (escapeQuotes s) = true.
Proof.
  revert previous. induction s as [|c r IH]; intros previous;
    [reflexivity|].
  cbn [escapeQuotes]. destruct (Ascii.eqb c quote) eqn:Hc.
  - cbn [quotesEscaped]. rewrite IH. reflexivity.
  - cbn [quotesEscaped]. rewrite Hc, IH. reflexivity.
Qed.

Lemma escapeQuotes_app (a b : string) :
  escapeQuotes (a ++ b) = escapeQuotes a ++ escapeQuotes b.
Proof.
  induction a as [|c a IH]; [reflexivity|].
  simpl. destruct (Ascii.eqb c quote); simpl; rewrite IH; reflexivity.
Qed.

Lemma includes_skip (p : string) (c : ascii) (s : string) :
  startsWith p (String c s) = false ->
  includes p (String c s) = includes p s.
Proof.
  intros H. change (includes p (String c s))
    with (startsWith p (String c s) || includes p s).
  rewrite H. reflexivity.
Qed.

Lemma includes_app_right (p a b : string) :
  includes p b = true -> includes p (a ++ b) = true.
Proof.
  intros H. induction a as [|c a IH]; [exact H|].
  apply includes_cons, IH.
Qed.

Lemma includes_app_left (p a b : string) :
  includes p a = true -> includes p (a ++ b) = true.
Proof.
  induction a as [|c a IH].
  - simpl. rewrite orb_false_r. intros H.
    destruct p; [destruct b; reflexivity | discriminate H].
  - change (includes p (String c a))
      with (startsWith p (String c a) || includes p a).
    intros H. apply orb_true_iff in H as [H | H].
    + change (includes p (String c a ++ b))
        with (startsWith p (String c a ++ b) || includes p (a ++ b)).
      rewrite (startsWith_app _ _ b H). reflexivity.
    + apply includes_cons, IH, H.
Qed.

End Escaping.

(** X25. The escaping of the request payload for the shell puts a
    backslash before every double quote and changes nothing else: in the
    escaped payload every double quote comes right after a backslash,
    taking those backslashes out gives the payload back, and the escaped
    form of two texts put together is their escaped forms put together.
    Backslashes of the payload are not escaped: a double quote that the
    payload already has behind a backslash ends up behind two. *)
Theorem escapeQuotes_spec :
  (forall payload, quotesEscaped None (escapeQuotes payload) = true)
  /\ (forall payload, unescapeQuotes (escapeQuotes payload) = payload)
  /\ (forall a b, escapeQuotes (a ++ b) = escapeQuotes a ++ escapeQuotes b)
  /\ (forall a b,
        escapeQuotes (a ++ String backslash (String quote b))
        = escapeQuotes a
          ++ String backslash
               (String backslash (String quote (escapeQuotes b)))).
Proof.
  split; [apply escapeQuotes_escaped|]. split; [apply unescape_escape|].
  split; [apply escapeQuotes_app|].
  intros a b. rewrite escapeQuotes_app. reflexivity.
Qed.

(** X26. Errors thrown inside the [try] block of [callOpenAI] pass
    through its [catch] block like those of [exec].  So when curl writes
    to stderr only, and what it writes holds "not recognized", the error
    that leaves [callOpenAI] is "curl is not installed or not in PATH";
    and an error reported by the API whose text holds both "curl" and
    "not recognized" leaves as that same message, the text of the API
    lost.  A process killed with SIGTERM is reported as a timeout
    whatever its message says. *)
Theorem callOpenAI_failures (timeout : Z) :
  let notInstalled :=
    thrownInTry
      "curl is not installed or not in PATH. Please install curl to use this package." in
  (forall stderr,
      includes "not recognized" stderr = true ->
      curlFailure timeout "" stderr = Some notInstalled)
  /\ (forall text,
        includes "curl" text = true ->
        includes "not recognized" text = true ->
        apiFailure timeout text = notInstalled)
  /\ (forall text,
        includes "not recognized" text = false ->
        apiFailure timeout text
        = thrownInTry ("OpenAI API error: " ++ text))
  /\ (forall message,
        rethrow timeout
          {| killed := true; signal := Some "SIGTERM";
             failureMessage := message |}
        = thrownInTry
            ("OpenAI API request timed out after " ++ showInteger timeout
               ++ "ms")).
Proof.
  intros notInstalled. split; [|split; [|split]].
  - intros stderr Hrec. unfold curlFailure.
    assert (Hne : truthy stderr = true)
      by (destruct stderr; [discriminate Hrec | reflexivity]).
    rewrite Hne. cbn [truthy negb andb]. unfold rethrow.
    cbn [killed andb failureMessage thrownInTry].
    rewrite (includes_app_left "curl" "curl error: " stderr eq_refl).
    rewrite (includes_app_right "not recognized" "curl error: " stderr Hrec).
    reflexivity.
  - intros text Hcurl Hrec. unfold apiFailure, rethrow.
    cbn [killed andb failureMessage thrownInTry].
    rewrite (includes_app_right "curl" "OpenAI API error: " text Hcurl).
    rewrite (includes_app_right "not recognized" "OpenAI API error: " text
               Hrec).
    reflexivity.
  - intros text Hrec. unfold apiFailure, rethrow.
    cbn [killed andb failureMessage thrownInTry].
    assert (Hsame :
      includes "not recognized" ("OpenAI API error: " ++ text)
      = includes "not recognized" text).
    { cbn [append].
      repeat (rewrite includes_skip by reflexivity). reflexivity. }
    rewrite Hsame, Hrec, andb_false_r. reflexivity.
  - intros message. reflexivity.
Qed.

Lemma callOpenAI_failures_witness :
  apiFailure 30000
    "The model curl-7b is not recognized. Pick another model."
  = thrownInTry
      "curl is not installed or not in PATH. Please install curl to use this package.".
Proof.
  destruct (callOpenAI_failures 30000) as (_ & Hapi & _).
  apply Hapi; reflexivity.
Defined.
